(** * DocsOS backend: sections, docs, uploads

    A shallow embedding of [src/main.py] and [src/schemas.py].

    - Python dictionaries are finite maps from field names to values
      ([gmap string value]); lists are lists, in the order the program sees
      them.
    - Code that can raise returns a [result]; handlers that touch module
      state ([db], the upload directory, the environment) are functions of
      a [World] written in a small state-and-exception monad.
    - The libraries the program calls ([bson.ObjectId], the MongoDB driver,
      [os.path], [list.sort]) are modelled by the definitions of the first
      sections, each next to a note of what it stands for. *)

From stdpp Require Import gmap strings list fin_maps pretty sorting.
From Stdlib Require Import ZArith Ascii.
From Stdlib.Strings Require Import Byte.

(** ** Exceptions and results *)

Inductive exn :=
| TypeError (msg : string)
| InvalidId (msg : string)
| PyMongoError (msg : string)
| OtherError (msg : string)
| HTTPException (status_code : Z) (detail : string).

(** [str(e)]: the message of the exception; Starlette prints an
    [HTTPException] as its status code, a colon and its detail. *)
Definition str_exn (e : exn) : string :=
  match e with
  | TypeError msg | InvalidId msg | PyMongoError msg | OtherError msg => msg
  | HTTPException status_code detail => pretty status_code +:+ ": " +:+ detail
  end.

Inductive result (A : Type) :=
| Ok (a : A)
| Raise (e : exn).
Arguments Ok {A} a.
Arguments Raise {A} e.

Definition rbind {A B} (r : result A) (k : A → result B) : result B :=
  match r with
  | Ok a => k a
  | Raise e => Raise e
  end.

(** ** Identities: [bson.ObjectId] *)

Module ObjectId.

(** An ObjectId wraps the bytes of its [binary] attribute; the ones the
    store generates have twelve. *)
Record t := mk { binary : list byte }.

#[global] Instance byte_eq_dec : EqDecision byte := Byte.byte_eq_dec.
#[global] Instance t_eq_dec : EqDecision t.
Proof. solve_decision. Defined.

Definition hex_digit (n : N) : ascii :=
  nth (N.to_nat n) (String.list_ascii_of_string "0123456789abcdef") "0"%char.

(** [binascii.hexlify]: two lower-case digits per byte. *)
Fixpoint hexlify (bs : list byte) : string :=
  match bs with
  | [] => ""
  | b :: bs' =>
      String (hex_digit (Byte.to_N b / 16))
        (String (hex_digit (Byte.to_N b mod 16)) (hexlify bs'))
  end.

(** The value of a hexadecimal digit, in either case. *)
Definition digit_value (c : ascii) : option N :=
  let n := N_of_ascii c in
  if (48 <=? n)%N && (n <=? 57)%N then Some (n - 48)%N
  else if (97 <=? n)%N && (n <=? 102)%N then Some (n - 87)%N
  else if (65 <=? n)%N && (n <=? 70)%N then Some (n - 55)%N
  else None.

(** ASCII white space: tab, line feed, vertical tab, form feed, carriage
    return and space. *)
Definition is_space (c : ascii) : bool :=
  let n := N_of_ascii c in
  ((9 <=? n)%N && (n <=? 13)%N) || (n =? 32)%N.

(** [bytes.fromhex]: pairs of hexadecimal digits, white space skipped
    between the pairs; [None] stands for its [ValueError]. *)
Fixpoint fromhex (s : string) : option (list byte) :=
  match s with
  | EmptyString => Some []
  | String c s' =>
      if is_space c then fromhex s'
      else
        match digit_value c, s' with
        | Some top, String c' s'' =>
            match digit_value c' with
            | Some bot =>
                match Byte.of_N (16 * top + bot), fromhex s'' with
                | Some b, Some bs => Some (b :: bs)
                | _, _ => None
                end
            | None => None
            end
        | _, _ => None
        end
  end.

Definition invalid_id_message (oid : string) : string :=
  "'" +:+ oid +:+
  "' is not a valid ObjectId, it must be a 12-byte input or a 24-character hex string".

(** [ObjectId(oid)] for a [str] argument: the text must have 24
    characters and go through [bytes.fromhex]; otherwise [InvalidId]. *)
Definition new (oid : string) : result t :=
  if decide (String.length oid = 24%nat) then
    match fromhex oid with
    | Some bs => Ok (mk bs)
    | None => Raise (InvalidId (invalid_id_message oid))
    end
  else Raise (InvalidId (invalid_id_message oid)).

(** [ObjectId.is_valid(oid)]: false on an empty text, and otherwise
    whether the constructor goes through; [InvalidId] and [TypeError]
    are caught, anything else would propagate. *)
Definition is_valid (oid : string) : result bool :=
  if decide (oid = "") then Ok false
  else
    match new oid with
    | Ok _ => Ok true
    | Raise (InvalidId _) | Raise (TypeError _) => Ok false
    | Raise e => Raise e
    end.

(** [str(oid)] *)
Definition str (o : t) : string := hexlify (binary o).

(** [bytes] compare lexicographically, byte by byte. *)
Fixpoint bytes_ltb (a b : list byte) : bool :=
  match a, b with
  | _, [] => false
  | [], _ :: _ => true
  | x :: a', y :: b' =>
      if (Byte.to_N x <? Byte.to_N y)%N then true
      else if (Byte.to_N y <? Byte.to_N x)%N then false
      else bytes_ltb a' b'
  end.

Definition ltb (a b : t) : bool := bytes_ltb (binary a) (binary b).

End ObjectId.

(** ** Values held by payloads and stored records *)

Inductive value :=
| VNone
| VInt (z : Z)
| VStr (s : string)
| VList (l : list string)
| VOid (o : ObjectId.t).

#[global] Instance value_eq_dec : EqDecision value.
Proof. solve_decision. Defined.

Abbreviation dict := (gmap string value).

Definition type_name (v : value) : string :=
  match v with
  | VNone => "NoneType"
  | VInt _ => "int"
  | VStr _ => "str"
  | VList _ => "list"
  | VOid _ => "ObjectId"
  end.

(** Lists of texts compare at the first position where they differ, and by
    length when one is a prefix of the other. *)
Fixpoint list_ltb (a b : list string) : bool :=
  match a, b with
  | _, [] => false
  | [], _ :: _ => true
  | x :: a', y :: b' =>
      if String.eqb x y then list_ltb a' b' else String.ltb x y
  end.

(** [a < b]: defined between two values of one ordered type, a
    [TypeError] otherwise, also between [None] and [None]. *)
Definition py_lt (a b : value) : result bool :=
  match a, b with
  | VInt x, VInt y => Ok (x <? y)%Z
  | VStr x, VStr y => Ok (String.ltb x y)
  | VList x, VList y => Ok (list_ltb x y)
  | VOid x, VOid y => Ok (ObjectId.ltb x y)
  | _, _ =>
      Raise (TypeError ("'<' not supported between instances of '" +:+
                        type_name a +:+ "' and '" +:+ type_name b +:+ "'"))
  end.

(** [list.sort(key=...)]: a stable sort that compares keys with [<] only
    and lets the exception of a comparison through.  It is written here as
    an insertion sort; which pair of keys is compared first, and so which
    message a [TypeError] carries, depends on the algorithm. *)
Fixpoint insert_sorted {A} (key : A → value) (x : A) (l : list A)
  : result (list A) :=
  match l with
  | [] => Ok [x]
  | y :: l' =>
      rbind (py_lt (key y) (key x)) (λ b,
        if b then rbind (insert_sorted key x l') (λ r, Ok (y :: r))
        else Ok (x :: y :: l'))
  end.

Fixpoint list_sort {A} (key : A → value) (l : list A) : result (list A) :=
  match l with
  | [] => Ok []
  | x :: l' => rbind (list_sort key l') (insert_sorted key x)
  end.

(** [oid_str], main.py lines 24-25. *)
Definition oid_str (oid : value) : value :=
  match oid with
  | VOid o => VStr (ObjectId.str o)
  | _ => oid
  end.

(** [serialize_doc], main.py lines 28-35.  [doc.pop("_id", None)] removes
    the key and gives its value, or [None] when the key is not there. *)
Definition serialize_doc (doc : dict) : dict :=
  if decide (doc = ∅) then doc
  else
    let popped := default VNone (doc !! "_id") in
    let doc := <["id" := oid_str popped]> (delete "_id" doc) in
    match doc !! "section_id" with
    | Some (VOid o) => <["section_id" := VStr (ObjectId.str o)]> doc
    | _ => doc
    end.

(** The guarded decoding of create_doc (line 83) and list_docs (lines
    99-100): [ObjectId(text) if ObjectId.is_valid(text) else None]. *)
Definition decode (text : string) : result (option ObjectId.t) :=
  rbind (ObjectId.is_valid text) (λ valid,
    if valid then rbind (ObjectId.new text) (λ o, Ok (Some o))
    else Ok None).

(** ** Module state and the monad of the handlers *)

(** The database handle.  [Some e] in [server_error] is a server that
    cannot be reached: every operation on the handle raises [e].  The
    records of a collection are kept in the order the store returns them. *)
Record Database := mkDatabase {
  name : string;
  server_error : option exn;
  collections : gmap string (list dict);
}.

(** [db] is [None] when the connection was never set up; [files] maps the
    paths that exist on disk to their content (paths are told apart as
    texts, and a directory is a path that exists like any other);
    [environ] is the process environment. *)
Record World := mkWorld {
  db : option Database;
  files : gmap string (list byte);
  environ : gmap string string;
}.

Definition M (A : Type) : Type := World → result A * World.

Definition ret {A} (a : A) : M A := λ w, (Ok a, w).
Definition raise {A} (e : exn) : M A := λ w, (Raise e, w).
Definition bind {A B} (m : M A) (k : A → M B) : M B :=
  λ w, match m w with
       | (Ok a, w') => k a w'
       | (Raise e, w') => (Raise e, w')
       end.
Definition lift {A} (r : result A) : M A := λ w, (r, w).
Definition get_world : M World := λ w, (Ok w, w).
Definition put_world (w : World) : M () := λ _, (Ok (), w).

(** [try: body except ...: handler] *)
Definition try_except {A} (body : M A) (handler : exn → M A) : M A :=
  λ w, match body w with
       | (Ok a, w') => (Ok a, w')
       | (Raise e, w') => handler e w'
       end.

Declare Scope py_scope.
Notation "'let*' x := m 'in' k" := (bind m (λ x, k))
  (at level 10, x name, m at level 100, k at level 200) : py_scope.
Notation "m ;;; k" := (bind m (λ _, k))
  (at level 100, k at level 200, right associativity) : py_scope.
Open Scope py_scope.

(** ** The MongoDB driver *)

(** A filter [{field: value, ...}] selects the records that hold each of
    its fields with that value.  The program only builds the empty filter
    and filters on one identity. *)
Definition matches (query doc : dict) : bool :=
  bool_decide (map_Forall (λ k v, doc !! k = Some v) query).

(** [db[coll]]: subscripting [None] is a [TypeError]. *)
Definition db_getitem : M Database :=
  let* w := get_world in
  match db w with
  | None => raise (TypeError "'NoneType' object is not subscriptable")
  | Some d => ret d
  end.

Definition records (d : Database) (coll : string) : list dict :=
  default [] (collections d !! coll).

(** [db[coll].find(query)], read into a list. *)
Definition find (coll : string) (query : dict) : M (list dict) :=
  let* d := db_getitem in
  match server_error d with
  | Some e => raise e
  | None => ret (filter (λ doc, matches query doc = true) (records d coll))
  end.

(** [db[coll].find_one(query)]: the first match, or [None]. *)
Definition find_one (coll : string) (query : dict) : M (option dict) :=
  let* d := db_getitem in
  match server_error d with
  | Some e => raise e
  | None => ret (head (filter (λ doc, matches query doc = true) (records d coll)))
  end.

(** [db[coll].insert_one(doc).inserted_id]: the record gets the identity
    [new_id] that the driver generates for it and is added after the
    records already there.  The records this program inserts are model
    dumps, which never bring an [_id] of their own. *)
Definition insert_one (coll : string) (new_id : ObjectId.t) (doc : dict)
  : M ObjectId.t :=
  let* d := db_getitem in
  match server_error d with
  | Some e => raise e
  | None =>
      let stored := <["_id" := VOid new_id]> doc in
      let* w := get_world in
      put_world
        (mkWorld
           (Some (mkDatabase (name d) (server_error d)
                    (<[coll := records d coll ++ [stored]]> (collections d))))
           (files w) (environ w)) ;;;
      ret new_id
  end.

(** [db.list_collection_names()] *)
Definition list_collection_names (d : Database) : result (list string) :=
  match server_error d with
  | Some e => Raise e
  | None => Ok (elements (dom (collections d)))
  end.

(** ** schemas.py *)

Definition opt_value {A} (f : A → value) (o : option A) : value :=
  from_option f VNone o.

(** [Section] (schemas.py lines 19-26) and its subclass [SectionCreate]
    (main.py line 40), which adds nothing. *)
Module SectionCreate.

Record t := mk {
  title : string;
  description : option string;
  order : option Z;
}.

(** A request body whose fields, where present, have the JSON type of
    the field they go to; [None] is a field left out or sent as null. *)
Record raw := mk_raw {
  raw_title : option string;
  raw_description : option string;
  raw_order : option Z;
}.

Inductive field_error :=
| missing (field : string)
| greater_than_equal (field : string) (ge : Z).

(** [title] is required ([Field(...)]), [description] is free, [order]
    carries [ge=0].  Every field that fails is reported. *)
Definition title_errors (r : raw) : list field_error :=
  match raw_title r with
  | None => [missing "title"]
  | Some _ => []
  end.

Definition order_errors (r : raw) : list field_error :=
  match raw_order r with
  | Some z => if (0 <=? z)%Z then [] else [greater_than_equal "order" 0]
  | None => []
  end.

Definition validate (r : raw) : list field_error + t :=
  match title_errors r ++ order_errors r, raw_title r with
  | [], Some s => inr (mk s (raw_description r) (raw_order r))
  | errors, _ => inl errors
  end.

Definition model_dump (p : t) : dict :=
  <["title" := VStr (title p)]>
    (<["description" := opt_value VStr (description p)]>
       (<["order" := opt_value VInt (order p)]> ∅)).

End SectionCreate.

(** [Doc] (schemas.py lines 28-37) and [DocCreate] (main.py line 43). *)
Module DocCreate.

Record t := mk {
  section_id : string;
  title : string;
  content : string;
  tags : option (list string);
  cover_image : option string;
}.

Definition model_dump (p : t) : dict :=
  <["section_id" := VStr (section_id p)]>
    (<["title" := VStr (title p)]>
       (<["content" := VStr (content p)]>
          (<["tags" := opt_value VList (tags p)]>
             (<["cover_image" := opt_value VStr (cover_image p)]> ∅)))).

End DocCreate.

(** ** database.py *)

(** Modelled from the spec: [create_document] of database.py, which is not
    among the sources.  Section 4.3: insert persists a mapping of fields
    and returns the newly generated identity, and fails when the store
    connection is not there; section 4.4: create_section returns the
    encoded id.  The payload comes in as its mapping of fields. *)
Definition create_document (coll : string) (new_id : ObjectId.t)
    (data : dict) : M string :=
  let* w := get_world in
  match db w with
  | None => raise (OtherError "Database not available")
  | Some _ =>
      let* inserted_id := insert_one coll new_id data in
      ret (ObjectId.str inserted_id)
  end.

(** Modelled from the spec: [get_documents] of database.py, which is not
    among the sources.  Section 4.3: find returns the matching raw records
    in store-native order and fails when the store connection is not
    there.  The program passes no limit. *)
Definition get_documents (coll : string) (filter_dict : dict)
    (limit : option nat) : M (list dict) :=
  let* w := get_world in
  match db w with
  | None => raise (OtherError "Database not available")
  | Some _ =>
      let* items := find coll filter_dict in
      ret (from_option (λ n, take n items) items limit)
  end.

(** ** main.py: sections and docs *)

Definition internal_error {A} (e : exn) : M A :=
  raise (HTTPException 500 (str_exn e)).

(** [create_section], lines 61-67. *)
Definition create_section (new_id : ObjectId.t) (payload : SectionCreate.t)
  : M string :=
  try_except
    (let* section_id :=
       create_document "section" new_id (SectionCreate.model_dump payload) in
     ret section_id)
    internal_error.

(** [x.get("order", 0)] *)
Definition order_key (x : dict) : value :=
  default (VInt 0) (x !! "order").

(** [list_sections], lines 69-76. *)
Definition list_sections : M (list dict) :=
  try_except
    (let* items := get_documents "section" ∅ None in
     let* items := lift (list_sort order_key items) in
     ret (map serialize_doc items))
    internal_error.

(** Truth value of [sec] in [if not sec]: [None] and the empty dictionary
    are false. *)
Definition truthy (sec : option dict) : bool :=
  match sec with
  | None => false
  | Some d => bool_decide (d ≠ ∅)
  end.

(** [create_doc], lines 79-93. *)
Definition create_doc (new_id : ObjectId.t) (payload : DocCreate.t)
  : M string :=
  try_except
    (let* valid := lift (ObjectId.is_valid (DocCreate.section_id payload)) in
     let* sec :=
       (if valid : bool then
          db_getitem ;;;
          let* oid := lift (ObjectId.new (DocCreate.section_id payload)) in
          find_one "section" (<["_id" := VOid oid]> ∅)
        else ret None) in
     if negb (truthy sec) then
       raise (HTTPException 400 "Section not found")
     else
       let data := DocCreate.model_dump payload in
       let* oid := lift (ObjectId.new (DocCreate.section_id payload)) in
       let data := <["section_id" := VOid oid]> data in
       let* inserted_id := insert_one "doc" new_id data in
       ret (ObjectId.str inserted_id))
    (λ e, match e with
          | HTTPException _ _ => raise e
          | _ => internal_error e
          end).

(** [list_docs], lines 95-104.  [section_id and ...] is false for [None]
    and for the empty text. *)
Definition list_docs (section_id : option string) : M (list dict) :=
  try_except
    (let query : dict := ∅ in
     let* query :=
       match section_id with
       | None => ret query
       | Some s =>
           if decide (s = "") then ret query
           else
             let* valid := lift (ObjectId.is_valid s) in
             if valid : bool then
               let* oid := lift (ObjectId.new s) in
               ret (<["section_id" := VOid oid]> query)
             else ret query
       end in
     let* items := find "doc" query in
     ret (map serialize_doc items))
    internal_error.

(** ** [os.path] *)

Module os_path.

(** [p.rfind(c)]: the last position of [c] in [p], or -1. *)
Fixpoint rfind_from (c : ascii) (p : string) (i last : Z) : Z :=
  match p with
  | EmptyString => last
  | String x p' =>
      rfind_from c p' (i + 1) (if Ascii.eqb x c then i else last)
  end.

Definition rfind (c : ascii) (p : string) : Z := rfind_from c p 0 (-1).

(** [p[i:j]] for positions within the text. *)
Definition slice (p : string) (i j : Z) : string :=
  String.substring (Z.to_nat i) (Z.to_nat (j - i)) p.

Fixpoint all_dots (p : string) : bool :=
  match p with
  | EmptyString => true
  | String x p' => Ascii.eqb x "." && all_dots p'
  end.

(** [os.path.splitext]: the extension starts at the last dot of the last
    component, unless only dots come before it in that component. *)
Definition splitext (p : string) : string * string :=
  let sepIndex := rfind "/" p in
  let dotIndex := rfind "." p in
  if (sepIndex <? dotIndex)%Z && negb (all_dots (slice p (sepIndex + 1) dotIndex))
  then (slice p 0 dotIndex, slice p dotIndex (Z.of_nat (String.length p)))
  else (p, "").

Fixpoint endswith_sep (p : string) : bool :=
  match p with
  | EmptyString => false
  | String x EmptyString => Ascii.eqb x "/"
  | String _ p' => endswith_sep p'
  end.

(** [os.path.join(a, b)] *)
Definition join (a b : string) : string :=
  if String.prefix "/" b then b
  else if bool_decide (a = "") || endswith_sep a then a +:+ b
  else a +:+ "/" +:+ b.

(** [os.path.exists(path)] *)
Definition exists_ (files : gmap string (list byte)) (path : string) : bool :=
  bool_decide (is_Some (files !! path)).

End os_path.

(** ** main.py: uploads *)

Definition UPLOAD_DIR : string := "uploads".

(** The name tried with suffix [idx]: [f"{base}_{idx}{ext}"]. *)
Definition suffixed (base ext : string) (idx : nat) : string :=
  base +:+ "_" +:+ pretty idx +:+ ext.

(** The loop of lines 120-123, with the number of rounds it may still
    take; [None] when they run out before a free path is found. *)
Fixpoint probe (fuel : nat) (existing : gmap string (list byte))
    (base ext : string) (idx : nat) (filename path : string)
  : option (string * string) :=
  if os_path.exists_ existing path then
    match fuel with
    | O => None
    | S fuel' =>
        let filename := suffixed base ext idx in
        let path := os_path.join UPLOAD_DIR filename in
        probe fuel' existing base ext (idx + 1) filename path
    end
  else Some (filename, path).

(** What the disk does when the file at a path is opened for writing and
    the content written, lines 124-125: it takes the content; or [open]
    raises (a directory that is not there, a path that is a directory, no
    permission) and nothing is written; or [open] has made the file and
    [write] raises (a full disk), leaving the part that was written. *)
Inductive disk_answer :=
| accepts
| open_fails (e : exn)
| write_fails (e : exn) (written : list byte).

(** [with open(path, "wb") as f: f.write(content)] on a disk that answers
    as [disk] says. *)
Definition write_file (disk : string → list byte → disk_answer)
    (path : string) (content : list byte) : M () :=
  let* w := get_world in
  match disk path content with
  | accepts =>
      put_world (mkWorld (db w) (<[path := content]> (files w)) (environ w))
  | open_fails e => raise e
  | write_fails e written =>
      put_world (mkWorld (db w) (<[path := written]> (files w)) (environ w)) ;;;
      raise e
  end.

(** [upload_image], lines 112-130; the result is the [url] field. *)
Definition upload_image (disk : string → list byte → disk_answer)
    (fuel : nat) (filename : string) (content : list byte)
  : World → option (result string * World) :=
  λ w,
    let path := os_path.join UPLOAD_DIR filename in
    let '(base, ext) := os_path.splitext filename in
    match probe fuel (files w) base ext 1 filename path with
    | None => None
    | Some (filename, path) =>
        Some (try_except
                (write_file disk path content ;;;
                 ret ("/static/" +:+ filename))
                internal_error w)
    end.

(** ** main.py: the health check *)

(** [os.getenv(key)] in a condition: set, and not to the empty text. *)
Definition getenv_truthy (w : World) (key : string) : bool :=
  match environ w !! key with
  | Some v => bool_decide (v ≠ "")
  | None => false
  end.

(** [str(e)[:50]] *)
Definition first50 (s : string) : string := String.substring 0 50 s.

(** [test_database], lines 136-164.  [response] is one dictionary updated
    in place, so the handler of line 158 works on it as the [try] block
    left it. *)
Definition test_database : M dict :=
  let* w := get_world in
  let response : dict :=
    <["backend" := VStr "✅ Running"]>
      (<["database" := VStr "❌ Not Available"]>
         (<["database_url" := VNone]>
            (<["database_name" := VNone]>
               (<["connection_status" := VStr "Not Connected"]>
                  (<["collections" := VList []]> ∅))))) in
  let response :=
    match db w with
    | Some d =>
        let response := <["database" := VStr "✅ Available"]> response in
        let response := <["database_url" := VStr "✅ Configured"]> response in
        let response := <["database_name" := VStr (name d)]> response in
        let response := <["connection_status" := VStr "Connected"]> response in
        match list_collection_names d with
        | Ok collections =>
            let response :=
              <["collections" := VList (take 10 collections)]> response in
            <["database" := VStr "✅ Connected & Working"]> response
        | Raise e =>
            <["database" := VStr ("❌ Error: " +:+ first50 (str_exn e))]> response
        end
    | None => <["database" := VStr "⚠️ Available but not initialized"]> response
    end in
  let response :=
    <["database_url" :=
        VStr (if getenv_truthy w "DATABASE_URL" then "✅ Set" else "❌ Not Set")]>
      response in
  let response :=
    <["database_name" :=
        VStr (if getenv_truthy w "DATABASE_NAME" then "✅ Set" else "❌ Not Set")]>
      response in
  ret response.

(** ** Vocabulary of the statements *)

(** A key that is an integer, and the integer it stands for. *)
Definition int_keyed {A} (key : A → value) (x : A) : Prop :=
  ∃ z, key x = VInt z.

Definition key_int {A} (key : A → value) (x : A) : Z :=
  match key x with VInt z => z | _ => 0 end.

Definition key_le {A} (key : A → value) (x y : A) : Prop :=
  (key_int key x ≤ key_int key y)%Z.

Definition with_key {A} (key : A → value) (k : Z) (x : A) : Prop :=
  key_int key x = k.

#[global] Instance with_key_dec {A} (key : A → value) k x :
  Decision (with_key key k x).
Proof. unfold with_key. apply _. Defined.

(** A world whose store is set up and answers. *)
Definition connected (w : World) (d : Database) : Prop :=
  db w = Some d ∧ server_error d = None.

(** Every record of the store carries an identity under [_id], as the
    driver gives one to each record it inserts. *)
Definition store_ok (d : Database) : Prop :=
  ∀ coll rec, rec ∈ records d coll → ∃ o, rec !! "_id" = Some (VOid o).

(** No stored Section has the identity [oid]. *)
Definition no_section (d : Database) (oid : ObjectId.t) : Prop :=
  Forall (λ rec, rec !! "_id" ≠ Some (VOid oid)) (records d "section").

(** The world after [stored] was added to the docs. *)
Definition add_doc (w : World) (d : Database) (stored : dict) : World :=
  mkWorld
    (Some (mkDatabase (name d) (server_error d)
             (<["doc" := records d "doc" ++ [stored]]> (collections d))))
    (files w) (environ w).

(** The record create_doc stores for [payload]. *)
Definition doc_record (new_id oid : ObjectId.t) (payload : DocCreate.t)
  : dict :=
  <["_id" := VOid new_id]>
    (<["section_id" := VOid oid]> (DocCreate.model_dump payload)).

(** What serialization does to a record that carries a store identity. *)
Definition serialized (doc out : dict) : Prop :=
  (∃ o, doc !! "_id" = Some (VOid o) ∧
        out !! "id" = Some (VStr (ObjectId.str o))) ∧
  out !! "_id" = None ∧
  (∀ o, doc !! "section_id" = Some (VOid o) →
        out !! "section_id" = Some (VStr (ObjectId.str o))) ∧
  ((∀ o, doc !! "section_id" ≠ Some (VOid o)) →
   out !! "section_id" = doc !! "section_id") ∧
  (∀ k, k ≠ "id" → k ≠ "_id" → k ≠ "section_id" → out !! k = doc !! k).

(** Texts made of the digits [0-9a-f] only. *)
Definition lower_hex_char (c : ascii) : bool :=
  let n := N_of_ascii c in
  ((48 <=? n)%N && (n <=? 57)%N) || ((97 <=? n)%N && (n <=? 102)%N).

Fixpoint lower_hex (s : string) : bool :=
  match s with
  | EmptyString => true
  | String c s' => lower_hex_char c && lower_hex s'
  end.

(** The path tried with suffix [i]. *)
Definition candidate (base ext : string) (i : nat) : string :=
  os_path.join UPLOAD_DIR (suffixed base ext i).

(** The world after [content] was written at [path]. *)
Definition stored_at (w : World) (path : string) (content : list byte)
  : World :=
  mkWorld (db w) (<[path := content]> (files w)) (environ w).

(** Every stored Doc refers, by an identity under [section_id], to a
    stored Section. *)
Definition refs_ok (d : Database) : Prop :=
  ∀ doc, doc ∈ records d "doc" →
    ∃ oid sec, doc !! "section_id" = Some (VOid oid) ∧
               sec ∈ records d "section" ∧
               sec !! "_id" = Some (VOid oid).

(** The errors of the driver are its own: it raises no [HTTPException]. *)
Definition driver_errors (w : World) : Prop :=
  ∀ d status detail,
    db w = Some d → server_error d ≠ Some (HTTPException status detail).

Definition is_oid (v : value) : Prop :=
  match v with VOid _ => True | _ => False end.

(** A text with its letters [A-Z] turned into [a-z]. *)
Definition lower_char (c : ascii) : ascii :=
  let n := N_of_ascii c in
  if (65 <=? n)%N && (n <=? 90)%N then ascii_of_N (n + 32) else c.

Fixpoint lower (s : string) : string :=
  match s with
  | EmptyString => EmptyString
  | String c s' => String (lower_char c) (lower s')
  end.

Definition with_section_id (s : string) (p : DocCreate.t) : DocCreate.t :=
  DocCreate.mk s (DocCreate.title p) (DocCreate.content p)
    (DocCreate.tags p) (DocCreate.cover_image p).

(** Uploads of one file name, one after the other. *)
Fixpoint upload_all (disk : string → list byte → disk_answer) (fuel : nat)
    (filename : string) (contents : list (list byte)) (w : World)
  : option (list (result string) * World) :=
  match contents with
  | [] => Some ([], w)
  | content :: contents' =>
      match upload_image disk fuel filename content w with
      | None => None
      | Some (r, w') =>
          match upload_all disk fuel filename contents' w' with
          | None => None
          | Some (rs, w'') => Some (r :: rs, w'')
          end
      end
  end.

(** The name under which the upload number [i] of a file name is stored
    when nothing stood in the way: the name itself, then [B_1.E],
    [B_2.E], ... *)
Definition nth_name (filename : string) (i : nat) : string :=
  match i with
  | O => filename
  | S _ =>
      suffixed (os_path.splitext filename).1 (os_path.splitext filename).2 i
  end.

(** The disk after [k] uploads of a name split into [base] and [ext]: the
    path of the name and those of its first [k - 1] suffixes are taken,
    those of the suffixes from [k] on are free. *)
Definition uploaded (filename base ext : string) (k : nat) (w : World)
  : Prop :=
  is_Some (files w !! os_path.join UPLOAD_DIR filename) ∧
  (∀ j, (1 ≤ j < k)%nat → is_Some (files w !! candidate base ext j)) ∧
  (∀ j, (k ≤ j)%nat → files w !! candidate base ext j = None).

(** A character that is a hexadecimal digit, in either case. *)
Definition hex_char (c : ascii) : bool :=
  match ObjectId.digit_value c with Some _ => true | None => false end.

Fixpoint string_forall (P : ascii → bool) (s : string) : bool :=
  match s with
  | EmptyString => true
  | String c s' => P c && string_forall P s'
  end.

Fixpoint count_space (s : string) : nat :=
  match s with
  | EmptyString => O
  | String c s' => (if ObjectId.is_space c then 1 else 0) + count_space s'
  end.

(** A well-formed identity text, as section 4.1 of the spec has it: of the
    right length, 24, and of hexadecimal content. *)
Definition well_formed (s : string) : bool :=
  bool_decide (String.length s = 24%nat) && string_forall hex_char s.

(** A text with a character that is neither a hexadecimal digit nor white
    space. *)
Definition has_foreign_char (s : string) : bool :=
  negb (string_forall (λ c, hex_char c || ObjectId.is_space c) s).

(** The disk that takes every write. *)
Definition sound_disk : string → list byte → disk_answer :=
  λ _ _, accepts.

(** ** Sample data *)

(** The identity whose last byte is [n], after eleven zero bytes. *)
Definition oid_of_nat (n : nat) : ObjectId.t :=
  ObjectId.mk (replicate 11 x00 ++ [default x00 (Byte.of_nat n)]).

(** Two stored Sections, the first with a null order. *)
Definition section_a : dict :=
  <["_id" := VOid (oid_of_nat 1)]>
    (SectionCreate.model_dump (SectionCreate.mk "Intro" None None)).
Definition section_b : dict :=
  <["_id" := VOid (oid_of_nat 2)]>
    (SectionCreate.model_dump (SectionCreate.mk "Processes" None (Some 1%Z))).
Definition null_order_world : World :=
  mkWorld
    (Some (mkDatabase "docsos" None (<["section" := [section_a; section_b]]> ∅)))
    ∅ ∅.

(** A Section whose identity has letters among its digits, and a Doc
    payload that names it in upper case. *)
Definition oid_abc : ObjectId.t :=
  ObjectId.mk [xab; xcd; xef; xab; xcd; xef; xab; xcd; xef; xab; xcd; xef].
Definition upper_case_world : World :=
  mkWorld
    (Some (mkDatabase "docsos" None
             (<["section" :=
                  [<["_id" := VOid oid_abc]>
                     (SectionCreate.model_dump
                        (SectionCreate.mk "Intro" None None))]]> ∅)))
    ∅ ∅.
Definition upper_case_payload : DocCreate.t :=
  DocCreate.mk "ABCDEFABCDEFABCDEFABCDEF" "Paging" "" None None.

(** 24 blanks: of the right length, with no hexadecimal digit in it. *)
Definition blanks : string := "                        ".

(** A store with two Sections and one Doc in each. *)
Definition doc_1 : dict :=
  doc_record (oid_of_nat 11) (oid_of_nat 1)
    (DocCreate.mk "000000000000000000000001" "Paging" "" None None).
Definition doc_2 : dict :=
  doc_record (oid_of_nat 12) (oid_of_nat 2)
    (DocCreate.mk "000000000000000000000002" "Threads" "" None None).
Definition two_docs_db : Database :=
  mkDatabase "docsos" None
    (<["doc" := [doc_1; doc_2]]> (<["section" := [section_a; section_b]]> ∅)).
Definition two_docs_world : World := mkWorld (Some two_docs_db) ∅ ∅.

(** * Identity codec *)

Section identity_codec.

Lemma fromhex_hexlify (bs : list byte) :
  ObjectId.fromhex (ObjectId.hexlify bs) = Some bs.
Proof.
  induction bs as [|b bs IH]; [done|].
  destruct b; cbn -[ObjectId.fromhex ObjectId.hexlify];
    simpl; rewrite IH; reflexivity.
Qed.

Lemma length_hexlify (bs : list byte) :
  String.length (ObjectId.hexlify bs) = (2 * List.length bs)%nat.
Proof. induction bs as [|b bs IH]; simpl; lia. Qed.

Lemma new_str (o : ObjectId.t) :
  List.length (ObjectId.binary o) = 12%nat →
  ObjectId.new (ObjectId.str o) = Ok o.
Proof.
  intros Hlen. destruct o as [bs]. simpl in Hlen.
  unfold ObjectId.new, ObjectId.str. simpl.
  rewrite length_hexlify, Hlen, fromhex_hexlify.
  by rewrite decide_True by done.
Qed.

Lemma is_valid_new (s : string) :
  ObjectId.is_valid s = Ok true → ∃ o, ObjectId.new s = Ok o.
Proof.
  unfold ObjectId.is_valid. case_decide; [done|].
  destruct (ObjectId.new s) as [o|e]; [eauto|by destruct e].
Qed.

Lemma is_valid_str (o : ObjectId.t) :
  List.length (ObjectId.binary o) = 12%nat →
  ObjectId.is_valid (ObjectId.str o) = Ok true.
Proof.
  intros Hlen. unfold ObjectId.is_valid.
  rewrite new_str by done.
  case_decide as He; [|done].
  apply (f_equal String.length) in He.
  unfold ObjectId.str in He. rewrite length_hexlify, Hlen in He. done.
Qed.

Lemma decode_total (text : string) :
  ∃ r, decode text = Ok r ∧
       (is_Some r ↔ ObjectId.is_valid text = Ok true) ∧
       (∀ o, r = Some o → ObjectId.new text = Ok o).
Proof.
  unfold decode, ObjectId.is_valid.
  case_decide as He; simpl.
  - exists None. split_and!; [done| |done].
    split; [by intros [? ?]|done].
  - destruct (ObjectId.new text) as [o|e] eqn:Hnew; simpl.
    + exists (Some o). split_and!; [done|by split|]. by intros ? [= ->].
    + unfold ObjectId.new in Hnew.
      assert (∃ msg, e = InvalidId msg) as [msg ->].
      { repeat case_match; simplify_eq; eauto. }
      simpl. exists None. split_and!; [done| |done].
      split; [by intros [? ?]|done].
Qed.

End identity_codec.

(** * Schema validators *)

Section schema_validators.

Import SectionCreate.

Lemma validate_accepts (r : raw) (s : string) :
  raw_title r = Some s →
  (∀ z, raw_order r = Some z → (0 ≤ z)%Z) →
  validate r = inr (mk s (raw_description r) (raw_order r)).
Proof.
  intros Ht Ho. unfold validate, title_errors, order_errors. rewrite Ht.
  destruct (raw_order r) as [z|]; [|done].
  specialize (Ho z eq_refl).
  by rewrite (proj2 (Z.leb_le 0 z)) by done.
Qed.

Lemma validate_inr (r : raw) (p : t) :
  validate r = inr p →
  raw_title r = Some (title p) ∧
  description p = raw_description r ∧
  order p = raw_order r ∧
  (∀ z, raw_order r = Some z → (0 ≤ z)%Z).
Proof.
  unfold validate, title_errors, order_errors.
  destruct (raw_title r) as [s|]; [|done].
  destruct (raw_order r) as [z|]; simpl.
  - destruct (0 <=? z)%Z eqn:Hz; [|done].
    intros [= <-]. split_and!; try done.
    intros ? [= <-]. by apply Z.leb_le.
  - intros [= <-]. by split_and!.
Qed.

(** C1, as the schema has it.  A Section payload is accepted exactly
    when it brings a title and its order, if any, is not negative; the
    accepted Section carries the title, the description and the order as
    sent.  No length is asked of the title: any text passes, the empty one
    too. *)
Theorem section_title_required (r : raw) (p : t) :
  validate r = inr p ↔
  raw_title r = Some (title p) ∧
  description p = raw_description r ∧
  order p = raw_order r ∧
  (∀ z, raw_order r = Some z → (0 ≤ z)%Z).
Proof.
  split; [apply validate_inr|].
  intros (Ht & Hd & Ho & Hge). rewrite (validate_accepts r (title p) Ht Hge).
  destruct p as [pt pd po]. simpl in *. by rewrite Hd, Ho.
Qed.

(** C1 as the claim words it fails: the empty title passes
    validation. *)
Lemma section_empty_title_accepted :
  validate (mk_raw (Some "") None None) = inr (mk "" None None).
Proof. reflexivity. Qed.

(** And create_section stores the Section it is given, whatever its
    title. *)
Lemma create_section_stores (new_id : ObjectId.t) (p : t) (w : World)
    (d : Database) :
  db w = Some d →
  server_error d = None →
  ∃ w' d',
    create_section new_id p w = (Ok (ObjectId.str new_id), w') ∧
    db w' = Some d' ∧
    records d' "section"
    = records d "section" ++ [<["_id" := VOid new_id]> (model_dump p)].
Proof.
  intros Hdb Hd.
  unfold create_section, try_except, create_document, insert_one,
    db_getitem, bind, get_world, put_world, ret, raise.
  repeat (rewrite ?Hdb, ?Hd; simpl).
  do 2 eexists. split_and!; [done..|].
  unfold records at 1. simpl. by rewrite lookup_insert_eq.
Qed.

End schema_validators.

(** * The definitions at work *)

Example is_valid_lower :
  ObjectId.is_valid "5f3a9c0012ab34cd56ef7890" = Ok true.
Proof. reflexivity. Qed.
Example is_valid_upper :
  ObjectId.is_valid "ABCDEFABCDEFABCDEFABCDEF" = Ok true.
Proof. reflexivity. Qed.
Example is_valid_short : ObjectId.is_valid "abc" = Ok false.
Proof. reflexivity. Qed.
Example is_valid_empty : ObjectId.is_valid "" = Ok false.
Proof. reflexivity. Qed.
Example is_valid_not_hex :
  ObjectId.is_valid "zzzzzzzzzzzzzzzzzzzzzzzz" = Ok false.
Proof. reflexivity. Qed.
Example str_oid_abc : ObjectId.str oid_abc = "abcdefabcdefabcdefabcdef".
Proof. reflexivity. Qed.
Example new_upper : ObjectId.new "ABCDEFABCDEFABCDEFABCDEF" = Ok oid_abc.
Proof. reflexivity. Qed.

Example validate_all_errors :
  SectionCreate.validate (SectionCreate.mk_raw None None (Some (-1)%Z))
  = inl [SectionCreate.missing "title";
         SectionCreate.greater_than_equal "order" 0].
Proof. reflexivity. Qed.

Example serialize_section_a :
  serialize_doc section_a
  = <["id" := VStr "000000000000000000000001"]>
      (SectionCreate.model_dump (SectionCreate.mk "Intro" None None)).
Proof. vm_compute. reflexivity. Qed.

Example serialize_empty : serialize_doc ∅ = ∅.
Proof. reflexivity. Qed.

Example sort_stable :
  list_sort fst [(VInt 2, "a"); (VInt 1, "b"); (VInt 2, "c"); (VInt 1, "d")]
  = Ok [(VInt 1, "b"); (VInt 1, "d"); (VInt 2, "a"); (VInt 2, "c")].
Proof. reflexivity. Qed.

Example sort_single_none : list_sort fst [(VNone, "a")] = Ok [(VNone, "a")].
Proof. reflexivity. Qed.

Example splitext_png : os_path.splitext "x.png" = ("x", ".png").
Proof. reflexivity. Qed.
Example splitext_hidden : os_path.splitext ".bashrc" = (".bashrc", "").
Proof. reflexivity. Qed.
Example splitext_dir : os_path.splitext "a.b/c" = ("a.b/c", "").
Proof. reflexivity. Qed.
Example splitext_two : os_path.splitext "a/..b.tar.gz" = ("a/..b.tar", ".gz").
Proof. reflexivity. Qed.
Example join_rel : os_path.join UPLOAD_DIR "x.png" = "uploads/x.png".
Proof. reflexivity. Qed.
Example join_abs : os_path.join UPLOAD_DIR "/x.png" = "/x.png".
Proof. reflexivity. Qed.
Example suffixed_1 : suffixed "x" ".png" 1 = "x_1.png".
Proof. reflexivity. Qed.

(** * Sorting by key *)

Section sorting.

Context {A : Type} (key : A → value).

Lemma insert_sorted_int (x : A) (l : list A) :
  Forall (int_keyed key) (x :: l) →
  ∃ l', insert_sorted key x l = Ok l' ∧
        l' ≡ₚ x :: l ∧
        (StronglySorted (key_le key) l → StronglySorted (key_le key) l') ∧
        ∀ k, filter (with_key key k) l' = filter (with_key key k) (x :: l).
Proof.
  intros Hall. apply Forall_cons in Hall as [[zx Hx] Hl].
  assert (key_int key x = zx) as Hkx by (unfold key_int; by rewrite Hx).
  induction l as [|y l IH].
  - exists [x]. split_and!; [done|done| |done].
    intros _. repeat constructor.
  - apply Forall_cons in Hl as [[zy Hy] Hl].
    assert (key_int key y = zy) as Hky by (unfold key_int; by rewrite Hy).
    specialize (IH Hl) as (l' & Hins & Hperm & Hsort & Hstable).
    simpl. rewrite Hy, Hx. simpl.
    destruct (zy <? zx)%Z eqn:Hlt.
    + apply Z.ltb_lt in Hlt. rewrite Hins. simpl.
      exists (y :: l'). split_and!; [done| | |].
      * rewrite Hperm. apply Permutation_swap.
      * intros Hs. apply StronglySorted_inv in Hs as [Hs Hhd].
        constructor; [by apply Hsort|].
        rewrite Hperm. constructor; [|done].
        unfold key_le. lia.
      * intros k. rewrite !filter_cons, Hstable, filter_cons.
        unfold with_key. repeat case_decide; try done; lia.
    + apply Z.ltb_ge in Hlt.
      exists (x :: y :: l). split_and!; [done|done| |done].
      intros Hs. constructor; [done|].
      pose proof (StronglySorted_inv Hs) as [_ Hhd].
      constructor.
      * unfold key_le. lia.
      * eapply Forall_impl; [exact Hhd|].
        intros b. unfold key_le. lia.
Qed.

(** On keys that are all integers the sort returns the records in
    non-decreasing key order, keeps them all, and keeps the records of
    one key in the order they came in. *)
Lemma list_sort_int (l : list A) :
  Forall (int_keyed key) l →
  ∃ l', list_sort key l = Ok l' ∧
        l' ≡ₚ l ∧
        StronglySorted (key_le key) l' ∧
        ∀ k, filter (with_key key k) l' = filter (with_key key k) l.
Proof.
  induction l as [|x l IH]; intros Hall.
  - exists []. split_and!; [done|done|constructor|done].
  - apply Forall_cons in Hall as [Hx Hl].
    specialize (IH Hl) as (s & Hs & Hperm & Hsorted & Hstable).
    destruct (insert_sorted_int x s) as (l' & Hins & Hperm' & Hsort' & Hst').
    { constructor; [done|]. by rewrite Hperm. }
    exists l'. simpl. rewrite Hs. simpl. split_and!; [done| |auto|].
    + by rewrite Hperm', Hperm.
    + intros k. rewrite Hst', !filter_cons, Hstable. done.
Qed.

Lemma insert_sorted_raise (x : A) (l : list A) (e : exn) :
  insert_sorted key x l = Raise e → ∃ msg, e = TypeError msg.
Proof.
  induction l as [|y l IH]; [done|]. simpl.
  destruct (py_lt (key y) (key x)) as [b|e'] eqn:Hlt; simpl.
  - destruct b; [|done].
    destruct (insert_sorted key x l); simpl; [done|].
    intros [= <-]. by apply IH.
  - intros [= <-]. unfold py_lt in Hlt.
    repeat case_match; simplify_eq; eauto.
Qed.

Lemma list_sort_raise (l : list A) (e : exn) :
  list_sort key l = Raise e → ∃ msg, e = TypeError msg.
Proof.
  revert e. induction l as [|x l IH]; [done|]. intros e. simpl.
  destruct (list_sort key l) as [s|e']; simpl.
  - apply insert_sorted_raise.
  - intros [= <-]. by apply IH.
Qed.

Lemma insert_sorted_length (x : A) (l l' : list A) :
  insert_sorted key x l = Ok l' → length l' = S (length l).
Proof.
  revert l'. induction l as [|y l IH]; intros l'; simpl.
  - by intros [= <-].
  - destruct (py_lt (key y) (key x)) as [[]|]; simpl; [|by intros [= <-]|done].
    destruct (insert_sorted key x l) as [r|]; simpl; [|done].
    intros [= <-]. simpl. by rewrite (IH r).
Qed.

Lemma list_sort_length (l l' : list A) :
  list_sort key l = Ok l' → length l' = length l.
Proof.
  revert l'. induction l as [|x l IH]; intros l'; simpl.
  - by intros [= <-].
  - destruct (list_sort key l) as [s|]; simpl; [|done].
    intros Hins%insert_sorted_length. rewrite Hins. by rewrite (IH s).
Qed.

Lemma insert_sorted_perm (x : A) (l l' : list A) :
  insert_sorted key x l = Ok l' → l' ≡ₚ x :: l.
Proof.
  revert l'. induction l as [|y l IH]; intros l'; simpl.
  - by intros [= <-].
  - destruct (py_lt (key y) (key x)) as [[]|]; simpl; [|by intros [= <-]|done].
    destruct (insert_sorted key x l) as [r|]; simpl; [|done].
    intros [= <-]. rewrite (IH r eq_refl). apply Permutation_swap.
Qed.

Lemma list_sort_perm (l l' : list A) :
  list_sort key l = Ok l' → l' ≡ₚ l.
Proof.
  revert l'. induction l as [|x l IH]; intros l'; simpl.
  - by intros [= <-].
  - destruct (list_sort key l) as [s|]; simpl; [|done].
    intros Hins%insert_sorted_perm. by rewrite Hins, (IH s).
Qed.

Lemma insert_sorted_none_new (x : A) (l : list A) :
  key x = VNone → l ≠ [] → ∃ msg, insert_sorted key x l = Raise (TypeError msg).
Proof.
  intros Hx Hl. destruct l as [|y l]; [done|]. simpl. rewrite Hx.
  unfold py_lt. destruct (key y); simpl; eauto.
Qed.

(** A [None] key among two or more records makes the sort raise a
    [TypeError]. *)
Lemma list_sort_none (l : list A) :
  (2 ≤ length l)%nat →
  Exists (λ x, key x = VNone) l →
  ∃ msg, list_sort key l = Raise (TypeError msg).
Proof.
  induction l as [|x l IH]; [simpl; lia|]. intros Hlen Hex. simpl in *.
  destruct (list_sort key l) as [s|e] eqn:Hs; simpl.
  - pose proof (list_sort_length _ _ Hs) as Hls.
    apply Exists_cons in Hex as [Hx|Hex].
    + apply insert_sorted_none_new; [done|]. destruct s; simpl in *; [lia|done].
    + destruct (decide (2 ≤ length l)%nat) as [H2|H2].
      { destruct (IH H2 Hex) as [? ?]. congruence. }
      destruct l as [|y [|? ?]]; simpl in *; try lia.
      apply Exists_cons in Hex as [Hy|Hex]; [|by apply Exists_nil in Hex].
      injection Hs as <-. simpl. rewrite Hy. simpl. eauto.
  - apply list_sort_raise in Hs as [msg ->]. eauto.
Qed.

End sorting.

(** * Entity repository *)

Ltac py_unfold :=
  unfold try_except, internal_error, get_documents, create_document, find,
    find_one, insert_one, db_getitem, bind, lift, ret, raise, get_world,
    put_world in *.

Section entity_repository.

Lemma matches_empty (doc : dict) : matches ∅ doc = true.
Proof. unfold matches. apply bool_decide_eq_true, map_Forall_empty. Qed.

Lemma matches_field (k : string) (v : value) (doc : dict) :
  matches (<[k := v]> ∅) doc = true ↔ doc !! k = Some v.
Proof.
  unfold matches. rewrite bool_decide_eq_true, insert_empty.
  by rewrite map_Forall_singleton.
Qed.

Lemma filter_matches_empty (l : list dict) :
  filter (λ doc, matches ∅ doc = true) l = l.
Proof.
  induction l as [|x l IH]; [done|].
  rewrite filter_cons, IH. by rewrite decide_True by apply matches_empty.
Qed.

Lemma filter_matches_field (k : string) (v : value) (l : list dict) :
  filter (λ doc, matches (<[k := v]> ∅) doc = true) l
  = filter (λ doc, doc !! k = Some v) l.
Proof. apply list_filter_iff. intros doc. apply matches_field. Qed.

Lemma find_connected (coll : string) (query : dict) w d :
  connected w d →
  find coll query w
  = (Ok (filter (λ doc, matches query doc = true) (records d coll)), w).
Proof. intros [Hdb Hd]. py_unfold. by rewrite Hdb, Hd. Qed.

Lemma order_key_int (x : dict) :
  int_keyed order_key x ↔
  x !! "order" = None ∨ ∃ z, x !! "order" = Some (VInt z).
Proof.
  unfold int_keyed, order_key.
  destruct (x !! "order") as [v|]; simpl.
  - split; [intros [z ->]; right; eauto|].
    intros [?|[z [= ->]]]; [done|eauto].
  - split; [intros _; by left|intros _; by exists 0%Z].
Qed.

(** The part of C2 that the code keeps: when every stored Section has an
    integer order or none at all, list_sections returns all of them in
    non-decreasing order (no order counting as 0), Sections of one order
    in the order the store gave them. *)
Lemma list_sections_sorted (w : World) (d : Database) :
  connected w d →
  Forall (λ x, x !! "order" = None ∨ ∃ z, x !! "order" = Some (VInt z))
    (records d "section") →
  ∃ items,
    list_sections w = (Ok (map serialize_doc items), w) ∧
    items ≡ₚ records d "section" ∧
    StronglySorted (key_le order_key) items ∧
    ∀ k, filter (with_key order_key k) items
         = filter (with_key order_key k) (records d "section").
Proof.
  intros Hc Hall.
  destruct (list_sort_int order_key (records d "section"))
    as (items & Hsort & Hperm & Hsorted & Hstable).
  { eapply Forall_impl; [exact Hall|]. intros x. apply order_key_int. }
  exists items. split_and!; [|done..].
  unfold list_sections, get_documents.
  pose proof (find_connected "section" ∅ w d Hc) as Hfind.
  destruct Hc as [Hdb Hd].
  unfold try_except, bind, get_world, lift, ret in *.
  rewrite Hdb, Hfind, filter_matches_empty. simpl. by rewrite Hsort.
Qed.

(** C2 at a null order.  With two stored Sections of which one has
    [order] null, list_sections does not return a sorted sequence: the
    sort compares [None] with an integer and the handler answers with
    the internal error 500. *)
Theorem list_sections_null_order :
  order_key section_a = VNone ∧
  list_sections null_order_world
  = (Raise (HTTPException 500
              "'<' not supported between instances of 'int' and 'NoneType'"),
     null_order_world).
Proof. split; vm_compute; reflexivity. Qed.

(** In general: a null order among two or more stored Sections makes
    list_sections fail with status 500. *)
Lemma list_sections_none (w : World) (d : Database) :
  connected w d →
  (2 ≤ length (records d "section"))%nat →
  Exists (λ x, x !! "order" = Some VNone) (records d "section") →
  ∃ detail, list_sections w = (Raise (HTTPException 500 detail), w).
Proof.
  intros Hc Hlen Hex.
  destruct (list_sort_none order_key (records d "section") Hlen)
    as [msg Hsort].
  { eapply Exists_impl; [exact Hex|]. intros x Hx.
    unfold order_key. by rewrite Hx. }
  exists msg. unfold list_sections, get_documents.
  pose proof (find_connected "section" ∅ w d Hc) as Hfind.
  destruct Hc as [Hdb Hd].
  unfold try_except, bind, get_world, lift, ret, internal_error, raise in *.
  rewrite Hdb, Hfind, filter_matches_empty. simpl. by rewrite Hsort.
Qed.

(** ** Serialization *)

Lemma serialize_doc_section_id (doc : dict) :
  doc ≠ ∅ →
  serialize_doc doc !! "section_id"
  = match doc !! "section_id" with
    | Some (VOid o) => Some (VStr (ObjectId.str o))
    | other => other
    end.
Proof.
  intros Hne. unfold serialize_doc. rewrite decide_False by done. simpl.
  rewrite lookup_insert_ne, lookup_delete_ne by done.
  destruct (doc !! "section_id") as [[]|] eqn:Hsec;
    rewrite ?lookup_insert_eq, ?lookup_insert_ne, ?lookup_delete_ne by done;
    done.
Qed.

Lemma serialize_doc_id (doc : dict) :
  doc ≠ ∅ →
  serialize_doc doc !! "id" = Some (oid_str (default VNone (doc !! "_id"))).
Proof.
  intros Hne. unfold serialize_doc. rewrite decide_False by done. simpl.
  rewrite lookup_insert_ne, lookup_delete_ne by done.
  destruct (doc !! "section_id") as [[]|];
    rewrite ?lookup_insert_ne by done; by rewrite lookup_insert_eq.
Qed.

Lemma serialize_doc_no__id (doc : dict) :
  doc ≠ ∅ → serialize_doc doc !! "_id" = None.
Proof.
  intros Hne. unfold serialize_doc. rewrite decide_False by done. simpl.
  rewrite lookup_insert_ne, lookup_delete_ne by done.
  destruct (doc !! "section_id") as [[]|];
    rewrite ?lookup_insert_ne by done; by rewrite lookup_delete_eq.
Qed.

Lemma serialize_doc_other (doc : dict) (k : string) :
  k ≠ "id" → k ≠ "_id" → k ≠ "section_id" →
  serialize_doc doc !! k = doc !! k.
Proof.
  intros H1 H2 H3. unfold serialize_doc. case_decide; [done|]. simpl.
  rewrite lookup_insert_ne, lookup_delete_ne by done.
  destruct (doc !! "section_id") as [[]|];
    by rewrite ?lookup_insert_ne, ?lookup_delete_ne by done.
Qed.

Lemma serialize_doc_serialized (doc : dict) (o : ObjectId.t) :
  doc !! "_id" = Some (VOid o) → serialized doc (serialize_doc doc).
Proof.
  intros Hid.
  assert (doc ≠ ∅) as Hne by (intros ->; by rewrite lookup_empty in Hid).
  unfold serialized. split_and!.
  - exists o. split; [done|]. by rewrite serialize_doc_id, Hid.
  - by apply serialize_doc_no__id.
  - intros s Hs. by rewrite serialize_doc_section_id, Hs.
  - intros Hs. rewrite serialize_doc_section_id by done.
    destruct (doc !! "section_id") as [[]|]; try done. by destruct (Hs o0).
  - intros k. apply serialize_doc_other.
Qed.

(** ** Decoding a reference *)

Lemma decode_some (s : string) (o : ObjectId.t) :
  decode s = Ok (Some o) ↔
  ObjectId.is_valid s = Ok true ∧ ObjectId.new s = Ok o.
Proof.
  destruct (decode_total s) as (r & Hr & Hsome & Hnew). rewrite Hr. split.
  - intros [= ->]. split; [by apply Hsome|by apply Hnew].
  - intros [Hv Hn]. apply Hsome in Hv as [o' ->].
    specialize (Hnew o' eq_refl). congruence.
Qed.

Lemma decode_none (s : string) :
  decode s = Ok None ↔ ObjectId.is_valid s = Ok false.
Proof.
  unfold decode. destruct (ObjectId.is_valid s) as [[]|e] eqn:Hv; simpl.
  - apply is_valid_new in Hv as [o ->]. simpl. split; done.
  - done.
  - split; done.
Qed.

Lemma is_valid_nonempty (s : string) :
  ObjectId.is_valid s = Ok true → s ≠ "".
Proof. unfold ObjectId.is_valid. by case_decide. Qed.

(** ** create_doc *)

Lemma db_getitem_connected w d :
  connected w d → db_getitem w = (Ok d, w).
Proof. intros [Hdb Hd]. unfold db_getitem, bind, get_world, ret. by rewrite Hdb. Qed.

Lemma find_one_connected (coll : string) (query : dict) w d :
  connected w d →
  find_one coll query w
  = (Ok (head (filter (λ doc, matches query doc = true) (records d coll))), w).
Proof. intros [Hdb Hd]. py_unfold. by rewrite Hdb, Hd. Qed.

Lemma filter_none {A} (P : A → Prop) `{∀ x, Decision (P x)} (l : list A) :
  Forall (λ x, ¬ P x) l → filter P l = [].
Proof.
  induction 1 as [|x l Hx Hl IH]; [done|].
  by rewrite filter_cons, decide_False, IH.
Qed.

Lemma head_filter_some {A} (P : A → Prop) `{∀ x, Decision (P x)}
    (l : list A) (x : A) :
  x ∈ l → P x → ∃ y, head (filter P l) = Some y ∧ P y.
Proof.
  induction l as [|z l IH]; [by intros ?%elem_of_nil|].
  intros Hin HP. rewrite filter_cons.
  case_decide as Hz; [by exists z|].
  apply elem_of_cons in Hin as [->|Hin]; [done|]. by apply IH.
Qed.

Lemma create_doc_ok new_id payload w d oid sec :
  connected w d →
  decode (DocCreate.section_id payload) = Ok (Some oid) →
  sec ∈ records d "section" →
  sec !! "_id" = Some (VOid oid) →
  create_doc new_id payload w
  = (Ok (ObjectId.str new_id), add_doc w d (doc_record new_id oid payload)).
Proof.
  intros Hc [Hv Hn]%decode_some Hin Hid.
  pose proof (find_one_connected "section" (<["_id" := VOid oid]> ∅) w d Hc)
    as Hfind.
  rewrite filter_matches_field in Hfind.
  destruct (head_filter_some (λ doc, doc !! "_id" = Some (VOid oid)) _ sec
              Hin Hid) as (sec' & Hhead & Hid').
  rewrite Hhead in Hfind.
  pose proof (db_getitem_connected w d Hc) as Hget.
  destruct Hc as [Hdb Hd].
  unfold create_doc, try_except, bind, lift.
  rewrite Hv, Hget, Hn, Hfind. simpl.
  rewrite bool_decide_eq_true_2; simpl.
  2: { intros ->. by rewrite lookup_empty in Hid'. }
  unfold insert_one, db_getitem, bind, get_world, put_world, ret.
  unfold add_doc, doc_record. rewrite Hdb. simpl. by rewrite Hd.
Qed.

Lemma create_doc_invalid new_id payload w :
  decode (DocCreate.section_id payload) = Ok None →
  create_doc new_id payload w
  = (Raise (HTTPException 400 "Section not found"), w).
Proof.
  intros Hv%decode_none.
  unfold create_doc, try_except, bind, lift, ret, raise.
  by rewrite Hv.
Qed.

Lemma create_doc_missing new_id payload w d oid :
  connected w d →
  decode (DocCreate.section_id payload) = Ok (Some oid) →
  no_section d oid →
  create_doc new_id payload w
  = (Raise (HTTPException 400 "Section not found"), w).
Proof.
  intros Hc [Hv Hn]%decode_some Hno.
  pose proof (find_one_connected "section" (<["_id" := VOid oid]> ∅) w d Hc)
    as Hfind.
  rewrite filter_matches_field, filter_none in Hfind by done.
  pose proof (db_getitem_connected w d Hc) as Hget.
  unfold create_doc, try_except, bind, lift, raise.
  by rewrite Hv, Hget, Hn, Hfind.
Qed.

(** With a well-formed section_id and no database handle the lookup
    itself fails, and create_doc answers with the internal error. *)
Lemma create_doc_no_handle new_id payload w oid :
  db w = None →
  decode (DocCreate.section_id payload) = Ok (Some oid) →
  ∃ detail,
    create_doc new_id payload w = (Raise (HTTPException 500 detail), w).
Proof.
  intros Hdb [Hv Hn]%decode_some.
  unfold create_doc, db_getitem, try_except, bind, lift, get_world, raise,
    internal_error.
  rewrite Hv, Hdb. simpl. by eexists.
Qed.

(** C4. When the section_id of a Doc payload does not decode, or decodes
    to an identity that no stored Section has, create_doc fails with the
    client error 400 "Section not found" and leaves the store, the docs
    collection included, as it was. *)
Theorem create_doc_section_not_found (new_id : ObjectId.t)
    (payload : DocCreate.t) (w : World) :
  (decode (DocCreate.section_id payload) = Ok None ∨
   ∃ d oid, connected w d ∧
            decode (DocCreate.section_id payload) = Ok (Some oid) ∧
            no_section d oid) →
  create_doc new_id payload w
  = (Raise (HTTPException 400 "Section not found"), w).
Proof.
  intros [Hinv|(d & oid & Hc & Hdec & Hno)].
  - by apply create_doc_invalid.
  - by eapply create_doc_missing.
Qed.

(** ** list_docs *)

Lemma list_docs_all (w : World) (d : Database) :
  connected w d →
  list_docs None w = (Ok (map serialize_doc (records d "doc")), w).
Proof.
  intros Hc. unfold list_docs, try_except, bind, ret.
  by rewrite (find_connected _ _ _ _ Hc), filter_matches_empty.
Qed.

Lemma list_docs_valid (w : World) (d : Database) (S : string) oid :
  connected w d →
  decode S = Ok (Some oid) →
  list_docs (Some S) w
  = (Ok (map serialize_doc
           (filter (λ doc, doc !! "section_id" = Some (VOid oid))
              (records d "doc"))), w).
Proof.
  intros Hc [Hv Hn]%decode_some.
  unfold list_docs, try_except, bind, ret, lift.
  rewrite decide_False by by apply is_valid_nonempty.
  rewrite Hv, Hn. simpl.
  by rewrite (find_connected _ _ _ _ Hc), filter_matches_field.
Qed.

Lemma list_docs_invalid (w : World) (d : Database) (S : string) :
  connected w d →
  decode S = Ok None →
  list_docs (Some S) w = (Ok (map serialize_doc (records d "doc")), w).
Proof.
  intros Hc Hv%decode_none.
  unfold list_docs, try_except, bind, ret, lift.
  case_decide.
  - by rewrite (find_connected _ _ _ _ Hc), filter_matches_empty.
  - rewrite Hv. simpl.
    by rewrite (find_connected _ _ _ _ Hc), filter_matches_empty.
Qed.

Lemma create_doc_section_not_found_witness :
  create_doc (oid_of_nat 9)
    (DocCreate.mk "000000000000000000000003" "Paging" "" None None)
    null_order_world
  = (Raise (HTTPException 400 "Section not found"), null_order_world).
Proof.
  apply create_doc_section_not_found. right.
  exists (mkDatabase "docsos" None (<["section" := [section_a; section_b]]> ∅)),
    (oid_of_nat 3).
  split_and!; [done|vm_compute; reflexivity|].
  unfold no_section.
  replace (records _ "section") with [section_a; section_b]
    by (vm_compute; reflexivity).
  repeat constructor; vm_compute; discriminate.
Defined.

(** ** create_doc followed by list_docs *)

Lemma connected_add_doc w d stored :
  connected w d →
  ∃ d', connected (add_doc w d stored) d' ∧
        records d' "doc" = records d "doc" ++ [stored] ∧
        records d' "section" = records d "section".
Proof.
  intros [Hdb Hd]. eexists. split_and!; [split; [done|]; exact Hd| |].
  - unfold records at 1. simpl. by rewrite lookup_insert_eq.
  - unfold records at 1. simpl. by rewrite lookup_insert_ne.
Qed.

Lemma lower_hex_char_digit (c : ascii) :
  lower_hex_char c = true →
  ∃ v, ObjectId.digit_value c = Some v ∧ (v < 16)%N ∧
       ObjectId.hex_digit v = c ∧ ObjectId.is_space c = false.
Proof.
  destruct c as [[] [] [] [] [] [] [] []]; intros H; vm_compute in H;
    try discriminate H; clear H;
    eexists; (split_and!; [reflexivity|reflexivity..]).
Qed.

Lemma hexlify_fromhex_aux (s : string) :
  (∀ bs, lower_hex s = true → ObjectId.fromhex s = Some bs →
         ObjectId.hexlify bs = s) ∧
  (∀ c bs, lower_hex (String c s) = true →
           ObjectId.fromhex (String c s) = Some bs →
           ObjectId.hexlify bs = String c s).
Proof.
  induction s as [|c' s [IH1 IH2]].
  - split; [by intros bs _ [= <-]|].
    intros c bs [Hc _]%andb_prop.
    apply lower_hex_char_digit in Hc as (v & Hv & _ & _ & Hsp).
    simpl. by rewrite Hsp, Hv.
  - split; [exact (IH2 c')|].
    intros c bs Hlow. simpl in Hlow.
    apply andb_prop in Hlow as [Hc [Hc' Hs]%andb_prop].
    apply lower_hex_char_digit in Hc as (top & Htop & Htlt & Hhex & Hsp).
    apply lower_hex_char_digit in Hc' as (bot & Hbot & Hblt & Hhex' & _).
    cbn [ObjectId.fromhex]. rewrite Hsp, Htop, Hbot.
    destruct (Byte.of_N (16 * top + bot)) as [b|] eqn:Hb; [|done].
    destruct (ObjectId.fromhex s) as [bs'|] eqn:Hbs'; [|done].
    intros [= <-]. apply Byte.to_of_N in Hb. cbn [ObjectId.hexlify].
    rewrite Hb.
    replace ((16 * top + bot) / 16)%N with top.
    2: { symmetry. rewrite N.mul_comm, N.div_add_l by done.
         rewrite N.div_small by done. lia. }
    replace ((16 * top + bot) mod 16)%N with bot.
    2: { symmetry. rewrite N.add_comm, N.mul_comm, N.Div0.mod_add.
         by apply N.mod_small. }
    by rewrite Hhex, Hhex', (IH1 bs').
Qed.

(** A text of lower-case hexadecimal digits that decodes is the text
    form of the identity it decodes to. *)
Lemma str_new_canonical (s : string) (o : ObjectId.t) :
  lower_hex s = true → ObjectId.new s = Ok o → ObjectId.str o = s.
Proof.
  intros Hlow. unfold ObjectId.new. case_decide; [|done].
  destruct (ObjectId.fromhex s) as [bs|] eqn:Hbs; [|done].
  intros [= <-]. by apply (proj1 (hexlify_fromhex_aux s)).
Qed.

(** C3, as the code has it.  Against a store that answers, a Doc payload
    whose section_id decodes to the identity of a stored Section is
    created, and the unfiltered list_docs that follows holds a record
    with the returned id, the payload's title, content, tags and
    cover_image, and as section_id the text form of the decoded
    identity: 24 lower-case hexadecimal digits, which are the text sent
    when that text was made of lower-case hexadecimal digits. *)
Theorem create_doc_then_list_docs (new_id : ObjectId.t)
    (payload : DocCreate.t) (w : World) (d : Database)
    (oid : ObjectId.t) (sec : dict) :
  connected w d →
  decode (DocCreate.section_id payload) = Ok (Some oid) →
  sec ∈ records d "section" →
  sec !! "_id" = Some (VOid oid) →
  ∃ w' out rec,
    create_doc new_id payload w = (Ok (ObjectId.str new_id), w') ∧
    list_docs None w' = (Ok out, w') ∧
    rec ∈ out ∧
    rec !! "id" = Some (VStr (ObjectId.str new_id)) ∧
    rec !! "title" = Some (VStr (DocCreate.title payload)) ∧
    rec !! "content" = Some (VStr (DocCreate.content payload)) ∧
    rec !! "tags" = Some (opt_value VList (DocCreate.tags payload)) ∧
    rec !! "cover_image"
    = Some (opt_value VStr (DocCreate.cover_image payload)) ∧
    rec !! "section_id" = Some (VStr (ObjectId.str oid)) ∧
    (lower_hex (DocCreate.section_id payload) = true →
     ObjectId.str oid = DocCreate.section_id payload).
Proof.
  intros Hc Hdec Hin Hid.
  set (stored := doc_record new_id oid payload).
  destruct (connected_add_doc w d stored Hc) as (d' & Hc' & Hdocs & _).
  exists (add_doc w d stored), (map serialize_doc (records d' "doc")),
    (serialize_doc stored).
  assert (stored !! "_id" = Some (VOid new_id)) as Hsid
      by apply lookup_insert_eq.
  assert (stored !! "section_id" = Some (VOid oid)) as Hssec.
  { unfold stored, doc_record.
    rewrite lookup_insert_ne by done. apply lookup_insert_eq. }
  destruct (serialize_doc_serialized stored new_id Hsid)
    as ((o & Ho & Hout) & _ & Hsec & _ & Hother).
  rewrite Hsid in Ho. injection Ho as <-.
  split_and!.
  - by eapply create_doc_ok.
  - by apply list_docs_all.
  - rewrite Hdocs, map_app. apply elem_of_app. right.
    apply list_elem_of_singleton. done.
  - done.
  - rewrite Hother by done. unfold stored, doc_record, DocCreate.model_dump.
    by rewrite !lookup_insert_ne, lookup_insert_eq by done.
  - rewrite Hother by done. unfold stored, doc_record, DocCreate.model_dump.
    by rewrite !lookup_insert_ne, lookup_insert_eq by done.
  - rewrite Hother by done. unfold stored, doc_record, DocCreate.model_dump.
    by rewrite !lookup_insert_ne, lookup_insert_eq by done.
  - rewrite Hother by done. unfold stored, doc_record, DocCreate.model_dump.
    by rewrite !lookup_insert_ne, lookup_insert_eq by done.
  - by apply Hsec.
  - intros Hlow. apply decode_some in Hdec as [_ Hnew].
    by apply str_new_canonical.
Qed.

Lemma create_doc_then_list_docs_witness :
  ∃ w',
    create_doc (oid_of_nat 9)
      (DocCreate.mk "000000000000000000000001" "Paging" "" None None)
      null_order_world
    = (Ok "000000000000000000000009", w').
Proof.
  destruct (create_doc_then_list_docs (oid_of_nat 9)
              (DocCreate.mk "000000000000000000000001" "Paging" "" None None)
              null_order_world
              (mkDatabase "docsos" None
                 (<["section" := [section_a; section_b]]> ∅))
              (oid_of_nat 1) section_a)
    as (w' & out & rec & Hcreate & _).
  - done.
  - vm_compute. reflexivity.
  - replace (records _ "section") with [section_a; section_b]
      by (vm_compute; reflexivity).
    apply elem_of_cons. by left.
  - vm_compute. reflexivity.
  - exists w'. exact Hcreate.
Defined.

(** C3 as the claim words it fails: create_doc accepts a section_id
    written in upper case, and no record of the list_docs that follows
    has that text as its section_id; the one record listed has it in
    lower case. *)
Lemma create_doc_upper_case_section_id :
  ∃ w' out,
    create_doc (oid_of_nat 9) upper_case_payload upper_case_world
    = (Ok "000000000000000000000009", w') ∧
    list_docs None w' = (Ok out, w') ∧
    Forall (λ rec, rec !! "section_id"
                   = Some (VStr "abcdefabcdefabcdefabcdef")) out ∧
    ¬ ∃ rec, rec ∈ out ∧
             rec !! "section_id"
             = Some (VStr (DocCreate.section_id upper_case_payload)).
Proof.
  exists (snd (create_doc (oid_of_nat 9) upper_case_payload upper_case_world)),
    [serialize_doc (doc_record (oid_of_nat 9) oid_abc upper_case_payload)].
  split_and!.
  - vm_compute. reflexivity.
  - vm_compute. reflexivity.
  - constructor; [|constructor]. vm_compute. reflexivity.
  - intros (rec & Hin & Hsec).
    apply list_elem_of_singleton in Hin as ->.
    vm_compute in Hsec. discriminate Hsec.
Qed.

(** ** Records as the store holds them *)

Lemma store_ok_empty (n : string) (e : option exn) :
  store_ok (mkDatabase n e ∅).
Proof. intros coll rec. unfold records. simpl. by intros ?%elem_of_nil. Qed.

Lemma insert_one_store_ok coll new_id doc w d :
  connected w d →
  store_ok d →
  ∃ w' d', insert_one coll new_id doc w = (Ok new_id, w') ∧
           connected w' d' ∧ store_ok d'.
Proof.
  intros [Hdb Hd] Hok. py_unfold. rewrite Hdb. simpl. rewrite Hd.
  do 2 eexists. split_and!; [done|split; [done|]; done|].
  intros coll' rec. unfold records at 1. simpl.
  destruct (decide (coll = coll')) as [<-|Hne].
  - rewrite lookup_insert_eq. simpl.
    intros [Hin|Hin]%elem_of_app; [by eapply Hok|].
    apply list_elem_of_singleton in Hin as ->.
    exists new_id. apply lookup_insert_eq.
  - rewrite lookup_insert_ne by done. apply Hok.
Qed.

(** C10. Against a store that answers and whose records carry their
    identity, every record that list_sections or list_docs returns is
    the serialization of a stored record: [id] holds the text form of
    the stored [_id], [_id] is gone, a [section_id] held as an identity
    is given in text form, and every other field, as well as a
    [section_id] that is not an identity, is as stored. *)
Theorem serialized_records (w : World) (d : Database)
    (section_id : option string) (out : list dict) :
  connected w d →
  store_ok d →
  (list_sections w).1 = Ok out ∨ (list_docs section_id w).1 = Ok out →
  ∀ r, r ∈ out →
    ∃ doc, (doc ∈ records d "section" ∨ doc ∈ records d "doc") ∧
           r = serialize_doc doc ∧
           (∃ o, doc !! "_id" = Some (VOid o) ∧
                 r !! "id" = Some (VStr (ObjectId.str o))) ∧
           r !! "_id" = None ∧
           (∀ o, doc !! "section_id" = Some (VOid o) →
                 r !! "section_id" = Some (VStr (ObjectId.str o))) ∧
           ((∀ o, doc !! "section_id" ≠ Some (VOid o)) →
            r !! "section_id" = doc !! "section_id") ∧
           (∀ k, k ≠ "id" → k ≠ "_id" → k ≠ "section_id" →
                 r !! k = doc !! k).
Proof.
  intros Hc Hok Hout r Hr.
  assert (∃ items, out = map serialize_doc items ∧
                   ∀ doc, doc ∈ items →
                          doc ∈ records d "section" ∨ doc ∈ records d "doc")
    as (items & -> & Hitems).
  { destruct Hout as [Hout|Hout].
    - unfold list_sections, get_documents in Hout.
      pose proof (find_connected "section" ∅ w d Hc) as Hfind.
      destruct Hc as [Hdb Hd].
      unfold try_except, bind, get_world, lift, ret, internal_error, raise
        in *.
      rewrite Hdb, Hfind, filter_matches_empty in Hout. simpl in Hout.
      destruct (list_sort order_key (records d "section")) as [items|e]
        eqn:Hsort; simpl in Hout; [|done].
      injection Hout as <-. exists items. split; [done|].
      intros doc Hdoc. left. by rewrite <-(list_sort_perm _ _ _ Hsort).
    - destruct section_id as [S|].
      + destruct (decode_total S) as ([oid|] & Hdec & _).
        * rewrite (list_docs_valid _ _ _ _ Hc Hdec) in Hout.
          injection Hout as <-. eexists. split; [done|].
          intros doc [_ Hdoc]%list_elem_of_filter. by right.
        * rewrite (list_docs_invalid _ _ _ Hc Hdec) in Hout.
          injection Hout as <-. eexists. split; [done|]. by right.
      + rewrite (list_docs_all _ _ Hc) in Hout.
        injection Hout as <-. eexists. split; [done|]. by right. }
  apply list_elem_of_fmap in Hr as (doc & -> & Hdoc).
  exists doc. split; [by apply Hitems|]. split; [done|].
  assert (∃ o, doc !! "_id" = Some (VOid o)) as [o Ho].
  { destruct (Hitems doc Hdoc); by eapply Hok. }
  exact (serialize_doc_serialized doc o Ho).
Qed.

Lemma serialized_records_witness :
  serialize_doc section_a !! "_id" = None ∧
  serialize_doc section_a !! "id"
  = Some (VStr "000000000000000000000001").
Proof.
  destruct (serialized_records
              (mkWorld (Some (mkDatabase "docsos" None
                                (<["section" := [section_a]]> ∅)))
                 ∅ ∅)
              (mkDatabase "docsos" None (<["section" := [section_a]]> ∅))
              None [serialize_doc section_a])
    with (r := serialize_doc section_a) as (doc & _ & _ & _ & Hid & _).
  - done.
  - intros coll rec. unfold records. simpl.
    destruct (decide (coll = "section")) as [->|Hne].
    + rewrite lookup_insert_eq. simpl.
      intros ->%list_elem_of_singleton. by exists (oid_of_nat 1).
    + rewrite lookup_insert_ne, lookup_empty by done. simpl.
      by intros ?%elem_of_nil.
  - left. vm_compute. reflexivity.
  - apply list_elem_of_singleton. reflexivity.
  - split; [exact Hid|]. vm_compute. reflexivity.
Defined.

End entity_repository.

(** * Upload namer *)

Section upload_namer.

Implicit Types (existing : gmap string (list byte)) (base ext : string).

Lemma string_length_app (a b : string) :
  String.length (a +:+ b) = (String.length a + String.length b)%nat.
Proof. induction a as [|c a IH]; simpl; [done|by rewrite IH]. Qed.

Lemma string_app_inv_tail (a b e : string) : a +:+ e = b +:+ e → a = b.
Proof.
  revert b. induction a as [|c a IH]; intros [|c' b] Heq.
  - done.
  - apply (f_equal String.length) in Heq.
    rewrite !string_length_app in Heq. simpl in Heq. lia.
  - apply (f_equal String.length) in Heq.
    rewrite !string_length_app in Heq. simpl in Heq. lia.
  - injection Heq as -> Heq. by rewrite (IH b).
Qed.

#[local] Instance suffixed_inj base ext : Inj (=) (=) (suffixed base ext).
Proof.
  intros i j Heq. unfold suffixed in Heq.
  apply String.app_inj, String.app_inj, string_app_inv_tail in Heq.
  by apply (inj pretty).
Qed.

#[local] Instance join_upload_dir_inj : Inj (=) (=) (os_path.join UPLOAD_DIR).
Proof.
  intros a b. unfold os_path.join, UPLOAD_DIR. simpl.
  destruct (String.prefix "/" a) eqn:Ha, (String.prefix "/" b) eqn:Hb;
    [done| | |].
  - intros ->. simpl in Ha. done.
  - intros <-. simpl in Hb. done.
  - intros Heq. by apply (String.app_inj "uploads/") in Heq.
Qed.

#[local] Instance candidate_inj base ext : Inj (=) (=) (candidate base ext).
Proof. intros i j Heq. by apply (inj (suffixed base ext)), (inj (os_path.join UPLOAD_DIR)). Qed.

Lemma exists_true existing path :
  os_path.exists_ existing path = true ↔ is_Some (existing !! path).
Proof. unfold os_path.exists_. apply bool_decide_eq_true. Qed.

Lemma exists_false existing path :
  os_path.exists_ existing path = false ↔ existing !! path = None.
Proof.
  unfold os_path.exists_. rewrite bool_decide_eq_false.
  by rewrite eq_None_not_Some.
Qed.

(** When the rounds run out, the path the loop started from and every
    path tried since are taken. *)
Lemma probe_none fuel existing base ext idx filename path :
  probe fuel existing base ext idx filename path = None →
  is_Some (existing !! path) ∧
  ∀ i, (idx ≤ i < idx + fuel)%nat → is_Some (existing !! candidate base ext i).
Proof.
  revert idx filename path.
  induction fuel as [|fuel IH]; intros idx filename path; simpl.
  - destruct (os_path.exists_ existing path) eqn:Hex; [|done].
    intros _. split; [by apply exists_true|]. intros i. lia.
  - destruct (os_path.exists_ existing path) eqn:Hex; [|done].
    intros [Hfirst Hrest]%IH. split; [by apply exists_true|].
    intros i Hi. destruct (decide (i = idx)) as [->|Hne]; [done|].
    apply Hrest. lia.
Qed.

(** At most as many paths are taken as there are files. *)
Lemma taken_bound existing base ext idx n :
  (∀ i, (idx ≤ i < idx + n)%nat → is_Some (existing !! candidate base ext i)) →
  (n ≤ size existing)%nat.
Proof.
  intros Htaken.
  set (tried := candidate base ext <$> seq idx n).
  assert (NoDup tried) as Hnodup.
  { apply (NoDup_fmap_2 _), NoDup_seq. }
  rewrite <-(size_dom (D := gset string) existing).
  replace n with (length tried) by (unfold tried; by rewrite length_fmap, length_seq).
  rewrite <-(size_list_to_set (C := gset string) tried Hnodup).
  apply subseteq_size. intros p Hp.
  apply elem_of_list_to_set, list_elem_of_fmap in Hp as (i & -> & Hi).
  apply elem_of_seq in Hi. apply elem_of_dom, Htaken. lia.
Qed.

Lemma probe_enough fuel existing base ext idx filename path :
  (size existing < fuel)%nat →
  is_Some (probe fuel existing base ext idx filename path).
Proof.
  intros Hfuel.
  destruct (probe fuel existing base ext idx filename path) eqn:Hp; [done|].
  apply probe_none in Hp as [_ Htaken]. apply taken_bound in Htaken. lia.
Qed.

Lemma probe_more fuel fuel' existing base ext idx filename path r :
  probe fuel existing base ext idx filename path = Some r →
  (fuel ≤ fuel')%nat →
  probe fuel' existing base ext idx filename path = Some r.
Proof.
  revert fuel' idx filename path.
  induction fuel as [|fuel IH]; intros fuel' idx filename path; simpl.
  - destruct (os_path.exists_ existing path) eqn:Hex; [done|].
    intros [= <-] _. destruct fuel'; simpl; by rewrite Hex.
  - destruct (os_path.exists_ existing path) eqn:Hex.
    + intros Hp Hle. destruct fuel' as [|fuel']; [lia|]. simpl.
      rewrite Hex. apply IH; [done|lia].
    + intros [= <-] _. destruct fuel'; simpl; by rewrite Hex.
Qed.

(** What the loop returns: the name it was given when that path is free,
    and otherwise the first suffixed name, counting from [idx], whose
    path is free. *)
Lemma probe_some fuel existing base ext idx filename path name path' :
  probe fuel existing base ext idx filename path = Some (name, path') →
  existing !! path' = None ∧
  ((name = filename ∧ path' = path) ∨
   (is_Some (existing !! path) ∧
    ∃ k, (idx ≤ k)%nat ∧ name = suffixed base ext k ∧
         path' = candidate base ext k ∧
         ∀ j, (idx ≤ j < k)%nat → is_Some (existing !! candidate base ext j))).
Proof.
  revert idx filename path.
  induction fuel as [|fuel IH]; intros idx filename path; simpl.
  - destruct (os_path.exists_ existing path) eqn:Hex; [done|].
    intros [= <- <-]. split; [by apply exists_false|by left].
  - destruct (os_path.exists_ existing path) eqn:Hex.
    + intros [Hfree Hcase]%IH. split; [done|]. right.
      split; [by apply exists_true|].
      destruct Hcase as [[-> ->]|(Htaken & k & Hk & -> & -> & Hbelow)].
      * exists idx. split_and!; [done..|]. intros j. lia.
      * exists k. split_and!; [lia|done..|].
        intros j Hj. destruct (decide (j = idx)) as [->|Hne]; [done|].
        apply Hbelow. lia.
    + intros [= <- <-]. split; [by apply exists_false|by left].
Qed.

Lemma probe_free fuel existing base ext idx filename path :
  existing !! path = None →
  probe fuel existing base ext idx filename path = Some (filename, path).
Proof.
  intros Hfree%exists_false. destruct fuel; simpl; by rewrite Hfree.
Qed.

Lemma probe_taken fuel existing base ext idx filename path :
  is_Some (existing !! path) →
  probe (S fuel) existing base ext idx filename path
  = probe fuel existing base ext (idx + 1) (suffixed base ext idx)
      (candidate base ext idx).
Proof. intros Htaken%exists_true. simpl. by rewrite Htaken. Qed.

(** C7. For every set of files on disk and every requested filename the
    probing loop comes to an end: once it is given more rounds than
    there are files it returns, always the same name; the path of that
    name is free; and the name is the requested one when its path is
    free, and otherwise the suffixed name [B_k.E] of the first index
    [k ≥ 1] whose path is free. *)
Theorem probe_terminates (existing : gmap string (list byte))
    (filename : string) :
  let base := (os_path.splitext filename).1 in
  let ext := (os_path.splitext filename).2 in
  ∃ name,
    (∀ fuel, (size existing < fuel)%nat →
       probe fuel existing base ext 1 filename
         (os_path.join UPLOAD_DIR filename)
       = Some (name, os_path.join UPLOAD_DIR name)) ∧
    existing !! os_path.join UPLOAD_DIR name = None ∧
    ((name = filename) ∨
     (is_Some (existing !! os_path.join UPLOAD_DIR filename) ∧
      ∃ k, (1 ≤ k)%nat ∧ name = suffixed base ext k ∧
           ∀ j, (1 ≤ j < k)%nat →
                is_Some (existing !! candidate base ext j))).
Proof.
  intros base ext.
  destruct (probe_enough (S (size existing)) existing base ext 1 filename
              (os_path.join UPLOAD_DIR filename)) as [[name path] Hp];
    [lia|].
  pose proof (probe_some _ _ _ _ _ _ _ _ _ Hp) as [Hfree Hcase].
  assert (path = os_path.join UPLOAD_DIR name) as ->.
  { destruct Hcase as [[-> ->]|(_ & k & _ & -> & -> & _)]; done. }
  exists name. split_and!; [|done|].
  - intros fuel Hfuel. eapply probe_more; [exact Hp|lia].
  - destruct Hcase as [[-> _]|(Htaken & k & Hk & -> & _ & Hbelow)];
      [by left|right].
    split; [done|]. by exists k.
Qed.

(** How an upload ends once the loop has settled on a name: as the disk
    answers at the path of that name. *)
Lemma upload_image_settled disk fuel filename content w base ext name :
  os_path.splitext filename = (base, ext) →
  probe fuel (files w) base ext 1 filename (os_path.join UPLOAD_DIR filename)
  = Some (name, os_path.join UPLOAD_DIR name) →
  upload_image disk fuel filename content w
  = Some (match disk (os_path.join UPLOAD_DIR name) content with
          | accepts =>
              (Ok ("/static/" +:+ name),
               stored_at w (os_path.join UPLOAD_DIR name) content)
          | open_fails e => (Raise (HTTPException 500 (str_exn e)), w)
          | write_fails e written =>
              (Raise (HTTPException 500 (str_exn e)),
               stored_at w (os_path.join UPLOAD_DIR name) written)
          end).
Proof.
  intros Hsplit Hp. unfold upload_image. rewrite Hsplit, Hp.
  unfold try_except, write_file, bind, get_world, put_world, ret, raise,
    internal_error.
  by destruct (disk (os_path.join UPLOAD_DIR name) content).
Qed.

(** An upload that returns had settled on a name whose path was free. *)
Lemma upload_image_some disk fuel filename content w r w' :
  upload_image disk fuel filename content w = Some (r, w') →
  ∃ name,
    files w !! os_path.join UPLOAD_DIR name = None ∧
    (name = filename ∨
     (is_Some (files w !! os_path.join UPLOAD_DIR filename) ∧
      ∃ k, (1 ≤ k)%nat ∧
           name = suffixed (os_path.splitext filename).1
                    (os_path.splitext filename).2 k)) ∧
    (r, w')
    = match disk (os_path.join UPLOAD_DIR name) content with
      | accepts =>
          (Ok ("/static/" +:+ name),
           stored_at w (os_path.join UPLOAD_DIR name) content)
      | open_fails e => (Raise (HTTPException 500 (str_exn e)), w)
      | write_fails e written =>
          (Raise (HTTPException 500 (str_exn e)),
           stored_at w (os_path.join UPLOAD_DIR name) written)
      end.
Proof.
  destruct (os_path.splitext filename) as [base ext] eqn:Hsplit.
  destruct (probe fuel (files w) base ext 1 filename
              (os_path.join UPLOAD_DIR filename)) as [[name path]|] eqn:Hp.
  2: { unfold upload_image. by rewrite Hsplit, Hp. }
  pose proof (probe_some _ _ _ _ _ _ _ _ _ Hp) as [Hfree Hcase].
  assert (path = os_path.join UPLOAD_DIR name) as ->.
  { destruct Hcase as [[-> ->]|(_ & k & _ & -> & -> & _)]; done. }
  rewrite (upload_image_settled _ _ _ _ _ _ _ _ Hsplit Hp).
  intros [= Heq]. exists name. split_and!; [done| |done].
  destruct Hcase as [[-> _]|(Htaken & k & Hk & -> & _)]; [by left|right].
  split; [done|]. by exists k.
Qed.

Lemma upload_image_free disk fuel name content w base ext idx filename :
  probe fuel (files w) base ext idx filename
    (os_path.join UPLOAD_DIR filename)
  = Some (name, os_path.join UPLOAD_DIR name) →
  os_path.splitext filename = (base, ext) →
  idx = 1%nat →
  disk (os_path.join UPLOAD_DIR name) content = accepts →
  upload_image disk fuel filename content w
  = Some (Ok ("/static/" +:+ name),
          stored_at w (os_path.join UPLOAD_DIR name) content).
Proof.
  intros Hp Hsplit -> Hdisk.
  by rewrite (upload_image_settled _ _ _ _ _ _ _ _ Hsplit Hp), Hdisk.
Qed.

(** C6. Uploads one after the other, on any disk.  Where the disk takes
    the write, an upload named [x.png] is stored as [x.png] when that path
    is free; as [x_1.png] when [x.png] is taken and [x_1.png] is free; as
    [x_2.png] when [x.png] and [x_1.png] are taken and [x_2.png] is free:
    so three uploads in a row on a disk without these names store
    [x.png], [x_1.png], [x_2.png].  And whatever the requested name and
    whatever the disk answers, an upload that returns has settled on a
    path where no file was and has touched no other path: every file that
    was there is still there with its content.  At the path settled on
    the content is stored and the url of the name returned; or, when
    opening or writing fails, the error is answered as status 500. *)
Theorem upload_namer_sequence (disk : string → list byte → disk_answer)
    (w : World) (content : list byte) (fuel : nat) :
  (2 ≤ fuel)%nat →
  (files w !! "uploads/x.png" = None →
   disk "uploads/x.png" content = accepts →
   upload_image disk fuel "x.png" content w
   = Some (Ok "/static/x.png", stored_at w "uploads/x.png" content)) ∧
  (is_Some (files w !! "uploads/x.png") →
   files w !! "uploads/x_1.png" = None →
   disk "uploads/x_1.png" content = accepts →
   upload_image disk fuel "x.png" content w
   = Some (Ok "/static/x_1.png", stored_at w "uploads/x_1.png" content)) ∧
  (is_Some (files w !! "uploads/x.png") →
   is_Some (files w !! "uploads/x_1.png") →
   files w !! "uploads/x_2.png" = None →
   disk "uploads/x_2.png" content = accepts →
   upload_image disk fuel "x.png" content w
   = Some (Ok "/static/x_2.png", stored_at w "uploads/x_2.png" content)) ∧
  (∀ filename r w',
     upload_image disk fuel filename content w = Some (r, w') →
     ∃ name,
       files w !! os_path.join UPLOAD_DIR name = None ∧
       (∀ path, is_Some (files w !! path) →
                files w' !! path = files w !! path) ∧
       (∀ path, path ≠ os_path.join UPLOAD_DIR name →
                files w' !! path = files w !! path) ∧
       match disk (os_path.join UPLOAD_DIR name) content with
       | accepts =>
           r = Ok ("/static/" +:+ name) ∧
           files w' !! os_path.join UPLOAD_DIR name = Some content
       | open_fails e =>
           r = Raise (HTTPException 500 (str_exn e)) ∧ w' = w
       | write_fails e written =>
           r = Raise (HTTPException 500 (str_exn e)) ∧
           files w' !! os_path.join UPLOAD_DIR name = Some written
       end).
Proof.
  intros Hfuel. destruct fuel as [|[|fuel]]; [lia..|]. split_and!.
  - intros H0 Hd.
    apply (upload_image_free _ _ "x.png" _ _ "x" ".png" 1); [|done..].
    by apply probe_free.
  - intros H0 H1 Hd.
    apply (upload_image_free _ _ "x_1.png" _ _ "x" ".png" 1); [|done..].
    rewrite probe_taken by done. by apply probe_free.
  - intros H0 H1 H2 Hd.
    apply (upload_image_free _ _ "x_2.png" _ _ "x" ".png" 1); [|done..].
    rewrite !probe_taken by done. by apply probe_free.
  - intros filename r w' Hup.
    apply upload_image_some in Hup as (name & Hfree & _ & Heq).
    exists name. split; [done|].
    assert (∀ c path, path ≠ os_path.join UPLOAD_DIR name →
              files (stored_at w (os_path.join UPLOAD_DIR name) c) !! path
              = files w !! path) as Hother.
    { intros c path Hne. simpl. by rewrite lookup_insert_ne. }
    assert (∀ path, is_Some (files w !! path) →
              path ≠ os_path.join UPLOAD_DIR name) as Hold.
    { intros path [c Hc] ->. congruence. }
    destruct (disk (os_path.join UPLOAD_DIR name) content) as [|e|e written];
      injection Heq as -> ->.
    + split_and!; [by intros; apply Hother, Hold|by apply Hother|done|].
      simpl. apply lookup_insert_eq.
    + by split_and!.
    + split_and!; [by intros; apply Hother, Hold|by apply Hother|done|].
      simpl. apply lookup_insert_eq.
Qed.

Lemma upload_namer_sequence_witness :
  let w0 := mkWorld None ∅ ∅ in
  let w1 := stored_at w0 "uploads/x.png" [x01] in
  let w2 := stored_at w1 "uploads/x_1.png" [x02] in
  let w3 := stored_at w2 "uploads/x_2.png" [x03] in
  upload_image sound_disk 2 "x.png" [x01] w0
  = Some (Ok "/static/x.png", w1) ∧
  upload_image sound_disk 2 "x.png" [x02] w1
  = Some (Ok "/static/x_1.png", w2) ∧
  upload_image sound_disk 2 "x.png" [x03] w2
  = Some (Ok "/static/x_2.png", w3) ∧
  files w3 !! "uploads/x.png" = Some [x01].
Proof.
  intros w0 w1 w2 w3.
  destruct (upload_namer_sequence sound_disk w0 [x01] 2) as (Hu1 & _); [lia|].
  destruct (upload_namer_sequence sound_disk w1 [x02] 2) as (_ & Hu2 & _);
    [lia|].
  destruct (upload_namer_sequence sound_disk w2 [x03] 2)
    as (_ & _ & Hu3 & _); [lia|].
  split_and!.
  - apply Hu1; reflexivity.
  - apply Hu2; [by eexists|vm_compute; reflexivity|reflexivity].
  - apply Hu3; [by eexists|by eexists|vm_compute; reflexivity|reflexivity].
  - vm_compute. reflexivity.
Defined.

End upload_namer.

(** * Health check *)

Ltac lookup_fields :=
  repeat (rewrite lookup_insert_eq || rewrite lookup_insert_ne by done);
  done.

Section health_check.

(** C9. The health check returns its summary in every state of the
    store connection and leaves the world as it was: with no handle, and
    with a handle whose server raises, the failure is written in the
    [database] field of the summary, the latter as the first 50
    characters of the error's message. *)
Theorem test_database_never_fails (w : World) :
  ∃ response,
    test_database w = (Ok response, w) ∧
    response !! "backend" = Some (VStr "✅ Running") ∧
    (db w = None →
     response !! "database" = Some (VStr "⚠️ Available but not initialized") ∧
     response !! "connection_status" = Some (VStr "Not Connected")) ∧
    (∀ d e, db w = Some d → server_error d = Some e →
            response !! "database"
            = Some (VStr ("❌ Error: " +:+ first50 (str_exn e))) ∧
            response !! "collections" = Some (VList [])) ∧
    (∀ d, db w = Some d → server_error d = None →
          response !! "database" = Some (VStr "✅ Connected & Working") ∧
          response !! "connection_status" = Some (VStr "Connected") ∧
          response !! "collections"
          = Some (VList (take 10 (elements (dom (collections d)))))).
Proof.
  unfold test_database, bind, get_world, ret, list_collection_names.
  destruct (db w) as [d|] eqn:Hdb; [destruct (server_error d) as [e|] eqn:He|];
    (eexists; split; [done|]); split_and!; try done.
  all: try (intros d' e' [= <-] He'; try congruence;
            rewrite He in He'; injection He' as <-; split; lookup_fields).
  all: intros d' [= <-] He'; try congruence; split_and!; lookup_fields.
Qed.

End health_check.

(** * Listing sections, in full *)

Section listing_sections.

Lemma order_key_serialize_doc (x : dict) :
  order_key (serialize_doc x) = order_key x.
Proof. unfold order_key. by rewrite serialize_doc_other. Qed.

Lemma key_int_serialize_doc (x : dict) :
  key_int order_key (serialize_doc x) = key_int order_key x.
Proof. unfold key_int. by rewrite order_key_serialize_doc. Qed.

Lemma StronglySorted_serialize_doc (items : list dict) :
  StronglySorted (key_le order_key) items →
  StronglySorted (key_le order_key) (map serialize_doc items).
Proof.
  induction 1 as [|x items Hs IH Hall]; simpl; constructor; [done|].
  apply Forall_fmap. eapply Forall_impl; [exact Hall|].
  intros y. unfold key_le, compose. by rewrite !key_int_serialize_doc.
Qed.

Lemma filter_with_key_serialize_doc (k : Z) (items : list dict) :
  filter (with_key order_key k) (map serialize_doc items)
  = map serialize_doc (filter (with_key order_key k) items).
Proof.
  induction items as [|x items IH]; [done|]. simpl.
  rewrite !filter_cons, IH.
  destruct (decide (with_key order_key k x)) as [Hk|Hk].
  - rewrite decide_True; [done|].
    unfold with_key in *. by rewrite key_int_serialize_doc.
  - rewrite decide_False; [done|].
    unfold with_key in *. by rewrite key_int_serialize_doc.
Qed.

Lemma list_sections_run (w : World) (d : Database) :
  connected w d →
  list_sections w
  = (match list_sort order_key (records d "section") with
     | Ok items => Ok (map serialize_doc items)
     | Raise e => Raise (HTTPException 500 (str_exn e))
     end, w).
Proof.
  intros Hc. unfold list_sections, get_documents.
  pose proof (find_connected "section" ∅ w d Hc) as Hfind.
  destruct Hc as [Hdb Hd].
  unfold try_except, bind, get_world, lift, ret, internal_error, raise in *.
  rewrite Hdb, Hfind, filter_matches_empty. simpl.
  by destruct (list_sort order_key (records d "section")).
Qed.

(** X1. When every stored Section has an integer order or no order field
    at all, list_sections answers with all of them, serialized, in
    non-decreasing order (a Section with no order counting as 0); Sections
    of one order come in the order of the store; the store is left as it
    was. *)
Theorem list_sections_output_sorted (w : World) (d : Database) :
  connected w d →
  Forall (λ x, x !! "order" = None ∨ ∃ z, x !! "order" = Some (VInt z))
    (records d "section") →
  ∃ out,
    list_sections w = (Ok out, w) ∧
    out ≡ₚ map serialize_doc (records d "section") ∧
    StronglySorted (key_le order_key) out ∧
    ∀ k, filter (with_key order_key k) out
         = map serialize_doc
             (filter (with_key order_key k) (records d "section")).
Proof.
  intros Hc Hall.
  destruct (list_sort_int order_key (records d "section"))
    as (items & Hsort & Hperm & Hsorted & Hstable).
  { eapply Forall_impl; [exact Hall|]. intros x. apply order_key_int. }
  exists (map serialize_doc items).
  rewrite (list_sections_run w d Hc), Hsort. split_and!.
  - done.
  - by apply Permutation_map.
  - by apply StronglySorted_serialize_doc.
  - intros k. by rewrite filter_with_key_serialize_doc, Hstable.
Qed.

Lemma list_sort_short {A} (key : A → value) (l : list A) :
  (length l ≤ 1)%nat → list_sort key l = Ok l.
Proof. destruct l as [|x [|y l]]; simpl; [done|done|lia]. Qed.

(** X2. For stored Sections whose order is an integer, null or not there:
    list_sections returns a list exactly when there are fewer than two
    Sections or none of them has a null order; otherwise it fails with
    status 500.  In both cases the store is left as it was. *)
Theorem list_sections_succeeds_iff (w : World) (d : Database) :
  connected w d →
  Forall (λ x, x !! "order" = None ∨ x !! "order" = Some VNone ∨
               ∃ z, x !! "order" = Some (VInt z))
    (records d "section") →
  ((∃ out, list_sections w = (Ok out, w)) ↔
   ((length (records d "section") ≤ 1)%nat ∨
    Forall (λ x, x !! "order" ≠ Some VNone) (records d "section"))) ∧
  ((∃ out, list_sections w = (Ok out, w)) ∨
   (∃ detail, list_sections w = (Raise (HTTPException 500 detail), w))).
Proof.
  intros Hc Hall. rewrite (list_sections_run w d Hc). split.
  - split.
    + intros [out Hout].
      destruct (decide (length (records d "section") ≤ 1)%nat) as [|Hlen];
        [by left|right].
      apply Forall_forall. intros x Hx Hnull.
      destruct (list_sort_none order_key (records d "section")) as [msg Hs];
        [lia| |].
      * apply Exists_exists. exists x. split; [done|].
        unfold order_key. by rewrite Hnull.
      * by rewrite Hs in Hout.
    + intros [Hlen|Hnone].
      * rewrite list_sort_short by done. by eexists.
      * destruct (list_sort_int order_key (records d "section"))
          as (items & -> & _); [|by eexists].
        apply Forall_forall. intros x Hx. apply order_key_int.
        rewrite Forall_forall in Hall, Hnone.
        destruct (Hall x Hx) as [?|[Hnull|?]]; [by left| |by right].
        by destruct (Hnone x Hx).
  - destruct (list_sort order_key (records d "section")); [left|right];
      by eexists.
Qed.

Lemma list_sections_output_sorted_witness :
  ∃ out,
    list_sections
      (mkWorld (Some (mkDatabase "docsos" None
                        (<["section" := [section_b; ∅]]> ∅))) ∅ ∅)
    = (Ok out, mkWorld (Some (mkDatabase "docsos" None
                                (<["section" := [section_b; ∅]]> ∅))) ∅ ∅) ∧
    StronglySorted (key_le order_key) out.
Proof.
  destruct (list_sections_output_sorted
              (mkWorld (Some (mkDatabase "docsos" None
                                (<["section" := [section_b; ∅]]> ∅))) ∅ ∅)
              (mkDatabase "docsos" None (<["section" := [section_b; ∅]]> ∅)))
    as (out & Hout & _ & Hsorted & _).
  - done.
  - replace (records _ "section") with [section_b; (∅ : dict)]
      by (vm_compute; reflexivity).
    constructor; [|constructor; [|constructor]].
    + right. exists 1%Z. vm_compute. reflexivity.
    + left. reflexivity.
  - exists out. by split.
Defined.

Lemma list_sections_succeeds_iff_witness :
  ∃ detail,
    list_sections null_order_world
    = (Raise (HTTPException 500 detail), null_order_world).
Proof.
  destruct (list_sections_succeeds_iff null_order_world
              (mkDatabase "docsos" None
                 (<["section" := [section_a; section_b]]> ∅)))
    as [[Hiff _] [[out Hout]|Hfail]].
  - done.
  - replace (records _ "section") with [section_a; section_b]
      by (vm_compute; reflexivity).
    constructor; [|constructor; [|constructor]].
    + right. left. vm_compute. reflexivity.
    + right. right. exists 1%Z. vm_compute. reflexivity.
  - destruct (Hiff (ex_intro _ out Hout)) as [Hlen|Hnone].
    + vm_compute in Hlen. lia.
    + replace (records _ "section") with [section_a; section_b] in Hnone
        by (vm_compute; reflexivity).
      apply Forall_cons in Hnone as [Hnone _]. by destruct Hnone.
  - exact Hfail.
Defined.

End listing_sections.

(** * Creating docs, in full *)

Section creating_docs.

Lemma create_doc_server_error new_id payload w d e oid :
  db w = Some d →
  server_error d = Some e →
  decode (DocCreate.section_id payload) = Ok (Some oid) →
  create_doc new_id payload w
  = (Raise (match e with
            | HTTPException _ _ => e
            | _ => HTTPException 500 (str_exn e)
            end), w).
Proof.
  intros Hdb He [Hv Hn]%decode_some.
  unfold create_doc, find_one, db_getitem, try_except, bind, lift,
    get_world, ret, raise, internal_error.
  rewrite Hv, Hdb, Hn. simpl. rewrite Hdb. simpl. rewrite He.
  by destruct e.
Qed.

(** Every way create_doc can go. *)
Lemma create_doc_cases new_id payload w r w' :
  create_doc new_id payload w = (r, w') →
  (w' = w ∧
   ∃ e, r = Raise e ∧
        (e = HTTPException 400 "Section not found" ∨
         (∃ detail, e = HTTPException 500 detail) ∨
         (∃ d status detail,
            db w = Some d ∧ e = HTTPException status detail ∧
            server_error d = Some e))) ∨
  (∃ d oid sec,
     connected w d ∧
     decode (DocCreate.section_id payload) = Ok (Some oid) ∧
     sec ∈ records d "section" ∧
     sec !! "_id" = Some (VOid oid) ∧
     r = Ok (ObjectId.str new_id) ∧
     w' = add_doc w d (doc_record new_id oid payload)).
Proof.
  destruct (decode_total (DocCreate.section_id payload))
    as ([oid|] & Hdec & _).
  2: { rewrite (create_doc_invalid _ _ _ Hdec). intros [= <- <-].
       left. split; [done|]. eexists. split; [done|]. by left. }
  destruct (db w) as [d|] eqn:Hdb.
  2: { destruct (create_doc_no_handle new_id payload w oid Hdb Hdec)
         as [detail ->].
       intros [= <- <-]. left. split; [done|]. eexists. split; [done|].
       right. left. by eexists. }
  destruct (server_error d) as [e|] eqn:He.
  { rewrite (create_doc_server_error _ _ _ _ _ _ Hdb He Hdec).
    intros [= <- <-]. left. split; [done|]. eexists. split; [done|].
    destruct e; try (right; left; by eexists).
    right. right. by exists d, status_code, detail. }
  assert (connected w d) as Hc by done.
  destruct (decide (no_section d oid)) as [Hno|Hsome].
  - rewrite (create_doc_missing _ _ _ _ _ Hc Hdec Hno). intros [= <- <-].
    left. split; [done|]. eexists. split; [done|]. by left.
  - apply not_Forall_Exists in Hsome; [|apply _].
    apply Exists_exists in Hsome as (sec & Hin & Hid).
    assert (sec !! "_id" = Some (VOid oid)) as Hid'.
    { simpl in Hid. by destruct (decide (sec !! "_id" = Some (VOid oid))). }
    rewrite (create_doc_ok _ _ _ _ _ _ Hc Hdec Hin Hid'). intros [= <- <-].
    right. by exists d, oid, sec.
Qed.

Lemma create_doc_no_handle_exact new_id payload w oid :
  db w = None →
  decode (DocCreate.section_id payload) = Ok (Some oid) →
  create_doc new_id payload w
  = (Raise (HTTPException 500 "'NoneType' object is not subscriptable"), w).
Proof.
  intros Hdb [Hv Hn]%decode_some.
  unfold create_doc, db_getitem, try_except, bind, lift, get_world, raise,
    internal_error.
  by rewrite Hv, Hdb.
Qed.

(** X3. A create_doc that fails has written nothing, and its error is an
    HTTP error that tells what went wrong: 400 "Section not found" when
    the section_id does not decode or no stored Section has the decoded
    identity; 500 with the text of the TypeError when there is no
    database handle; 500 with the text of the server's error when the
    server raises. *)
Theorem create_doc_failure (new_id : ObjectId.t) (payload : DocCreate.t)
    (w w' : World) (e : exn) :
  driver_errors w →
  create_doc new_id payload w = (Raise e, w') →
  w' = w ∧
  ((e = HTTPException 400 "Section not found" ∧
    (decode (DocCreate.section_id payload) = Ok None ∨
     ∃ d oid, connected w d ∧
              decode (DocCreate.section_id payload) = Ok (Some oid) ∧
              no_section d oid)) ∨
   (e = HTTPException 500 "'NoneType' object is not subscriptable" ∧
    db w = None ∧
    ∃ oid, decode (DocCreate.section_id payload) = Ok (Some oid)) ∨
   (∃ d e0 oid,
      db w = Some d ∧ server_error d = Some e0 ∧
      decode (DocCreate.section_id payload) = Ok (Some oid) ∧
      e = HTTPException 500 (str_exn e0))).
Proof.
  intros Hdrv.
  destruct (decode_total (DocCreate.section_id payload))
    as ([oid|] & Hdec & _).
  2: { rewrite (create_doc_invalid _ _ _ Hdec). intros [= <- <-].
       split; [done|]. left. split; [done|by left]. }
  destruct (db w) as [d|] eqn:Hdb.
  2: { rewrite (create_doc_no_handle_exact _ _ _ _ Hdb Hdec).
       intros [= <- <-]. split; [done|]. right. left.
       split_and!; [done..|by exists oid]. }
  destruct (server_error d) as [e0|] eqn:He.
  { rewrite (create_doc_server_error _ _ _ _ _ _ Hdb He Hdec).
    intros [= <- <-]. split; [done|]. right. right.
    exists d, e0, oid. split_and!; [done..|].
    destruct e0; try done. by destruct (Hdrv d status_code detail Hdb). }
  assert (connected w d) as Hc by done.
  destruct (decide (no_section d oid)) as [Hno|Hsome].
  - rewrite (create_doc_missing _ _ _ _ _ Hc Hdec Hno). intros [= <- <-].
    split; [done|]. left. split; [done|]. right. by exists d, oid.
  - apply not_Forall_Exists in Hsome; [|apply _].
    apply Exists_exists in Hsome as (sec & Hin & Hid).
    assert (sec !! "_id" = Some (VOid oid)) as Hid'.
    { simpl in Hid. by destruct (decide (sec !! "_id" = Some (VOid oid))). }
    by rewrite (create_doc_ok _ _ _ _ _ _ Hc Hdec Hin Hid').
Qed.

Lemma create_doc_failure_witness :
  let w := mkWorld (Some (mkDatabase "docsos" (Some (PyMongoError "timed out"))
                            ∅)) ∅ ∅ in
  let payload :=
    DocCreate.mk "000000000000000000000001" "Paging" "" None None in
  (create_doc (oid_of_nat 9) payload w).2 = w ∧
  (create_doc (oid_of_nat 9) payload w).1
  = Raise (HTTPException 500 "timed out").
Proof.
  intros w payload.
  destruct (create_doc_failure (oid_of_nat 9) payload w
              (create_doc (oid_of_nat 9) payload w).2
              (HTTPException 500 "timed out")) as [Hw _].
  - intros d status detail [= <-]. simpl. discriminate.
  - vm_compute. reflexivity.
  - split; [exact Hw|]. vm_compute. reflexivity.
Defined.

Lemma add_doc_records w d stored :
  ∃ d', db (add_doc w d stored) = Some d' ∧
        server_error d' = server_error d ∧
        records d' "doc" = records d "doc" ++ [stored] ∧
        (∀ coll, coll ≠ "doc" → records d' coll = records d coll) ∧
        files (add_doc w d stored) = files w ∧
        environ (add_doc w d stored) = environ w.
Proof.
  eexists. split_and!; [done|done| | |done|done].
  - unfold records at 1. simpl. by rewrite lookup_insert_eq.
  - intros coll Hne. unfold records at 1. simpl.
    by rewrite lookup_insert_ne.
Qed.

(** X4. A create_doc that succeeds has found the Section it was asked to
    attach to: the store answers, the section_id decodes, and a stored
    Section carries the decoded identity.  It returns the text of the new
    identity and has added one record at the end of the docs, the
    payload's fields with [section_id] as an identity; the other
    collections, the files and the environment are as before. *)
Theorem create_doc_success (new_id : ObjectId.t) (payload : DocCreate.t)
    (w w' : World) (id : string) :
  create_doc new_id payload w = (Ok id, w') →
  id = ObjectId.str new_id ∧
  ∃ d d' oid sec,
    connected w d ∧ connected w' d' ∧
    decode (DocCreate.section_id payload) = Ok (Some oid) ∧
    sec ∈ records d "section" ∧
    sec !! "_id" = Some (VOid oid) ∧
    records d' "doc"
    = records d "doc" ++
      [<["_id" := VOid new_id]>
         (<["section_id" := VOid oid]> (DocCreate.model_dump payload))] ∧
    (∀ coll, coll ≠ "doc" → records d' coll = records d coll) ∧
    files w' = files w ∧ environ w' = environ w.
Proof.
  intros [[_ (e & [=] & _)]|Hok]%create_doc_cases.
  destruct Hok as (d & oid & sec & Hc & Hdec & Hin & Hid & [= ->] & ->).
  split; [done|].
  destruct (add_doc_records w d (doc_record new_id oid payload))
    as (d' & Hdb' & He' & Hdocs & Hother & Hfiles & Henv).
  exists d, d', oid, sec. split_and!; try done.
  split; [done|]. rewrite He'. by destruct Hc.
Qed.

(** X5. create_doc keeps the store sound, however it ends: if every
    stored record carries an identity under [_id] and every stored Doc
    refers to a stored Section, the same holds afterwards. *)
Theorem create_doc_keeps_references (new_id : ObjectId.t)
    (payload : DocCreate.t) (w w' : World) (d : Database)
    (r : result string) :
  db w = Some d →
  store_ok d →
  refs_ok d →
  create_doc new_id payload w = (r, w') →
  ∃ d', db w' = Some d' ∧ store_ok d' ∧ refs_ok d'.
Proof.
  intros Hdb Hok Hrefs [[-> _]|Hcase]%create_doc_cases; [by exists d|].
  destruct Hcase as (d0 & oid & sec & [Hdb0 _] & _ & Hin & Hid & _ & ->).
  assert (d0 = d) as -> by congruence.
  destruct (add_doc_records w d (doc_record new_id oid payload))
    as (d' & Hdb' & _ & Hdocs & Hother & _).
  exists d'. split; [done|]. split.
  - intros coll rec. destruct (decide (coll = "doc")) as [->|Hne].
    + rewrite Hdocs. intros [Hrec|Hrec]%elem_of_app; [by eapply Hok|].
      apply list_elem_of_singleton in Hrec as ->.
      exists new_id. apply lookup_insert_eq.
    + rewrite Hother by done. apply Hok.
  - intros doc. rewrite Hdocs, (Hother "section") by done.
    intros [Hdoc|Hdoc]%elem_of_app; [by apply Hrefs|].
    apply list_elem_of_singleton in Hdoc as ->.
    exists oid, sec. split_and!; [|done..].
    unfold doc_record. rewrite lookup_insert_ne by done.
    apply lookup_insert_eq.
Qed.

(** X6. Listing after a successful create_doc.  The unfiltered listing,
    and the listing filtered by any text that decodes to the identity of
    the Doc's Section, are the listing from before followed by the new
    record, serialized; the listing filtered by the identity of another
    Section is the listing from before. *)
Theorem create_doc_then_list (new_id : ObjectId.t) (payload : DocCreate.t)
    (w w' : World) (id S : string) (oid : ObjectId.t) :
  create_doc new_id payload w = (Ok id, w') →
  decode S = Ok (Some oid) →
  ∃ all listed new,
    list_docs None w = (Ok all, w) ∧
    list_docs (Some S) w = (Ok listed, w) ∧
    new !! "id" = Some (VStr id) ∧
    list_docs None w' = (Ok (all ++ [new]), w') ∧
    (decode (DocCreate.section_id payload) = Ok (Some oid) →
     list_docs (Some S) w' = (Ok (listed ++ [new]), w')) ∧
    (decode (DocCreate.section_id payload) ≠ Ok (Some oid) →
     list_docs (Some S) w' = (Ok listed, w')).
Proof.
  intros [[_ (e & [=] & _)]|Hok]%create_doc_cases Hdec.
  destruct Hok as (d & oid0 & sec & Hc & Hdec0 & Hin & Hid & [= ->] & ->).
  set (stored := doc_record new_id oid0 payload).
  destruct (connected_add_doc w d stored Hc) as (d' & Hc' & Hdocs & _).
  exists (map serialize_doc (records d "doc")),
    (map serialize_doc
       (filter (λ doc, doc !! "section_id" = Some (VOid oid))
          (records d "doc"))),
    (serialize_doc stored).
  assert (stored !! "_id" = Some (VOid new_id)) as Hsid
      by apply lookup_insert_eq.
  assert (stored !! "section_id" = Some (VOid oid0)) as Hssec.
  { unfold stored, doc_record.
    rewrite lookup_insert_ne by done. apply lookup_insert_eq. }
  split_and!.
  - by apply list_docs_all.
  - by apply list_docs_valid.
  - rewrite serialize_doc_id, Hsid; [done|].
    intros Hempty. by rewrite Hempty, lookup_empty in Hsid.
  - by rewrite (list_docs_all _ _ Hc'), Hdocs, map_app.
  - rewrite Hdec0. intros [= ->].
    rewrite (list_docs_valid _ _ _ _ Hc' Hdec), Hdocs, filter_app, map_app.
    by rewrite filter_cons, filter_nil, decide_True.
  - rewrite Hdec0. intros Hne.
    rewrite (list_docs_valid _ _ _ _ Hc' Hdec), Hdocs, filter_app, map_app.
    rewrite filter_cons, filter_nil, decide_False; [|congruence].
    simpl. by rewrite app_nil_r.
Qed.

Lemma upper_case_world_ok :
  ∀ d, db upper_case_world = Some d → store_ok d ∧ refs_ok d.
Proof.
  intros d [= <-]. split.
  - intros coll rec. unfold records. simpl.
    destruct (decide (coll = "section")) as [->|Hne].
    + rewrite lookup_insert_eq. simpl.
      intros ->%list_elem_of_singleton. by exists oid_abc.
    + rewrite lookup_insert_ne, lookup_empty by done. simpl.
      by intros ?%elem_of_nil.
  - intros doc. unfold records. simpl.
    rewrite lookup_insert_ne, lookup_empty by done. simpl.
    by intros ?%elem_of_nil.
Qed.

Lemma create_doc_success_witness :
  "000000000000000000000009" = ObjectId.str (oid_of_nat 9) ∧
  files (create_doc (oid_of_nat 9) upper_case_payload upper_case_world).2
  = files upper_case_world.
Proof.
  destruct (create_doc_success (oid_of_nat 9) upper_case_payload
              upper_case_world
              (create_doc (oid_of_nat 9) upper_case_payload upper_case_world).2
              "000000000000000000000009")
    as (Hid & d & d' & oid & sec & _ & _ & _ & _ & _ & _ & _ & Hfiles & _).
  - vm_compute. reflexivity.
  - by split.
Defined.

Lemma create_doc_keeps_references_witness :
  ∃ d', db (create_doc (oid_of_nat 9) upper_case_payload upper_case_world).2
        = Some d' ∧ store_ok d' ∧ refs_ok d'.
Proof.
  destruct (upper_case_world_ok _ eq_refl) as [Hok Hrefs].
  apply (create_doc_keeps_references (oid_of_nat 9) upper_case_payload
           upper_case_world _ _
           (create_doc (oid_of_nat 9) upper_case_payload upper_case_world).1
           eq_refl Hok Hrefs).
  by destruct (create_doc _ _ _).
Defined.

Lemma create_doc_then_list_witness :
  ∃ new,
    new !! "id" = Some (VStr "000000000000000000000009") ∧
    list_docs (Some "abcdefabcdefabcdefabcdef")
      (create_doc (oid_of_nat 9) upper_case_payload upper_case_world).2
    = (Ok [new],
       (create_doc (oid_of_nat 9) upper_case_payload upper_case_world).2).
Proof.
  destruct (create_doc_then_list (oid_of_nat 9) upper_case_payload
              upper_case_world
              (create_doc (oid_of_nat 9) upper_case_payload upper_case_world).2
              "000000000000000000000009" "abcdefabcdefabcdefabcdef" oid_abc)
    as (all & listed & new & Hall & Hlisted & Hnew & _ & Hsame & _).
  - vm_compute. reflexivity.
  - vm_compute. reflexivity.
  - exists new. split; [done|].
    assert (listed = []) as ->.
    { assert (list_docs (Some "abcdefabcdefabcdefabcdef") upper_case_world
              = (Ok [], upper_case_world)) as Hempty
        by (vm_compute; reflexivity).
      congruence. }
    apply Hsame. vm_compute. reflexivity.
Defined.

End creating_docs.

(** * Identity texts *)

Section identity_texts.

Lemma lower_char_digit (c : ascii) :
  ObjectId.digit_value (lower_char c) = ObjectId.digit_value c.
Proof. destruct c as [[] [] [] [] [] [] [] []]; reflexivity. Qed.

Lemma lower_char_space (c : ascii) :
  ObjectId.is_space (lower_char c) = ObjectId.is_space c.
Proof. destruct c as [[] [] [] [] [] [] [] []]; reflexivity. Qed.

Lemma fromhex_lower_aux (s : string) :
  ObjectId.fromhex (lower s) = ObjectId.fromhex s ∧
  ∀ c, ObjectId.fromhex (lower (String c s)) = ObjectId.fromhex (String c s).
Proof.
  induction s as [|c' s [IH1 IH2]].
  - split; [done|]. intros c. cbn [lower ObjectId.fromhex].
    by rewrite lower_char_space, lower_char_digit.
  - split; [exact (IH2 c')|]. intros c.
    change (lower (String c (String c' s)))
      with (String (lower_char c) (lower (String c' s))).
    cbn [ObjectId.fromhex]. rewrite lower_char_space, lower_char_digit.
    destruct (ObjectId.is_space c); [exact (IH2 c')|].
    destruct (ObjectId.digit_value c) as [top|]; [|done].
    cbn [lower]. rewrite lower_char_digit, IH1. done.
Qed.

Lemma length_lower (s : string) : String.length (lower s) = String.length s.
Proof. induction s as [|c s IH]; simpl; [done|by rewrite IH]. Qed.

Lemma lower_empty (s : string) : lower s = "" ↔ s = "".
Proof. by destruct s. Qed.

Lemma is_valid_total (s : string) : ∃ b, ObjectId.is_valid s = Ok b.
Proof.
  destruct (decode_total s) as (r & Hr & _). unfold decode in Hr.
  destruct (ObjectId.is_valid s) as [b|e]; [by exists b|done].
Qed.

Lemma is_valid_true (s : string) :
  ObjectId.is_valid s = Ok true ↔
  String.length s = 24%nat ∧ is_Some (ObjectId.fromhex s).
Proof.
  unfold ObjectId.is_valid, ObjectId.new.
  destruct (decide (String.length s = 24%nat)) as [Hlen|Hlen].
  - rewrite decide_False by (intros ->; done).
    destruct (ObjectId.fromhex s); split; try done.
    + by intros [_ [? ?]].
  - case_decide; (split; [done|by intros [? _]]).
Qed.

Lemma is_valid_lower_eq (s : string) :
  ObjectId.is_valid (lower s) = ObjectId.is_valid s.
Proof.
  destruct (is_valid_total s) as [b Hb], (is_valid_total (lower s)) as [b' Hb'].
  assert (ObjectId.is_valid (lower s) = Ok true ↔
          ObjectId.is_valid s = Ok true) as Hiff.
  { rewrite !is_valid_true, length_lower.
    by rewrite (proj1 (fromhex_lower_aux s)). }
  rewrite Hb, Hb' in *. destruct b, b'; try done.
  - by destruct (proj2 Hiff eq_refl).
  - by destruct (proj1 Hiff eq_refl).
Qed.

Lemma decode_lower (s : string) : decode (lower s) = decode s.
Proof.
  unfold decode. rewrite is_valid_lower_eq.
  destruct (ObjectId.is_valid s) as [[]|] eqn:Hv; [|reflexivity..]. simpl.
  apply is_valid_true in Hv as [Hlen [bs Hbs]].
  unfold ObjectId.new.
  rewrite length_lower, (proj1 (fromhex_lower_aux s)), Hbs.
  by rewrite !decide_True by done.
Qed.

(** What list_docs does with a filter is settled by what the filter
    decodes to. *)
Lemma list_docs_by_decode (S1 S2 : string) (w : World) :
  decode S1 = decode S2 →
  list_docs (Some S1) w = list_docs (Some S2) w.
Proof.
  intros Heq.
  destruct (decode_total S1) as ([o|] & H1 & _).
  - assert (decode S2 = Ok (Some o)) as H2 by congruence.
    apply decode_some in H1 as [Hv1 Hn1]. apply decode_some in H2 as [Hv2 Hn2].
    unfold list_docs, try_except, bind, ret, lift.
    rewrite !decide_False by by apply is_valid_nonempty.
    by rewrite Hv1, Hv2, Hn1, Hn2.
  - assert (decode S2 = Ok None) as H2 by congruence.
    apply decode_none in H1, H2.
    unfold list_docs, try_except, bind, ret, lift.
    repeat case_decide; by rewrite ?H1, ?H2.
Qed.

Lemma section_id_overwritten (o : ObjectId.t) (s : string) (p : DocCreate.t) :
  <["section_id" := VOid o]> (DocCreate.model_dump (with_section_id s p))
  = <["section_id" := VOid o]> (DocCreate.model_dump p).
Proof. unfold DocCreate.model_dump. simpl. by rewrite !insert_insert_eq. Qed.

(** X7. Identity texts are read without regard to letter case: list_docs
    gives the same answer for a filter and for that filter in lower case,
    and create_doc does the same, down to the record it stores, for a
    payload and for that payload with its section_id in lower case. *)
Theorem identity_text_case (S : string) (new_id : ObjectId.t)
    (payload : DocCreate.t) (w : World) :
  decode (lower S) = decode S ∧
  list_docs (Some (lower S)) w = list_docs (Some S) w ∧
  create_doc new_id
    (with_section_id (lower (DocCreate.section_id payload)) payload) w
  = create_doc new_id payload w.
Proof.
  split_and!.
  - apply decode_lower.
  - apply list_docs_by_decode, decode_lower.
  - pose proof (decode_lower (DocCreate.section_id payload)) as Hdec.
    destruct (decode_total (DocCreate.section_id payload))
      as ([o|] & Hd & _); rewrite Hd in Hdec.
    + apply decode_some in Hd as [Hv Hn]. apply decode_some in Hdec as [Hv' Hn'].
      unfold create_doc, try_except, bind, lift. simpl.
      rewrite Hv, Hv', Hn, Hn'. by rewrite section_id_overwritten.
    + rewrite (create_doc_invalid _ _ _ Hd). by apply create_doc_invalid.
Qed.

Lemma fromhex_lower_hex (n : nat) (s : string) :
  lower_hex s = true →
  String.length s = (2 * n)%nat →
  ∃ bs, ObjectId.fromhex s = Some bs ∧ length bs = n.
Proof.
  revert s. induction n as [|n IH]; intros s Hlow Hlen.
  - destruct s; [by exists []|done].
  - destruct s as [|c [|c' s]]; simpl in Hlen; try lia.
    simpl in Hlow.
    apply andb_prop in Hlow as [Hc [Hc' Hs]%andb_prop].
    apply lower_hex_char_digit in Hc as (top & Htop & Htlt & _ & Hsp).
    apply lower_hex_char_digit in Hc' as (bot & Hbot & Hblt & _ & _).
    destruct (IH s Hs) as (bs & Hbs & Hn); [lia|].
    cbn [ObjectId.fromhex]. rewrite Hsp, Htop, Hbot, Hbs.
    destruct (Byte.of_N (16 * top + bot)) as [b|] eqn:Hb.
    + exists (b :: bs). split; [done|]. simpl. by rewrite Hn.
    + apply Byte.of_N_None_iff in Hb. lia.
Qed.

(** X8. Every text of 24 lower-case hexadecimal digits is a well-formed
    identity: it decodes to an identity of twelve bytes whose text form is
    the text itself. *)
Theorem canonical_text_round_trip (s : string) :
  lower_hex s = true →
  String.length s = 24%nat →
  ∃ o, decode s = Ok (Some o) ∧
       length (ObjectId.binary o) = 12%nat ∧
       oid_str (VOid o) = VStr s.
Proof.
  intros Hlow Hlen.
  destruct (fromhex_lower_hex 12 s Hlow Hlen) as (bs & Hbs & Hn).
  exists (ObjectId.mk bs).
  assert (ObjectId.new s = Ok (ObjectId.mk bs)) as Hnew.
  { unfold ObjectId.new. by rewrite decide_True, Hbs by done. }
  split_and!; [|done|].
  - apply decode_some. split; [|done].
    apply is_valid_true. split; [done|]. by rewrite Hbs.
  - simpl. f_equal. by apply str_new_canonical.
Qed.

Lemma canonical_text_round_trip_witness :
  ∃ o, decode "5f3a9c0012ab34cd56ef7890" = Ok (Some o) ∧
       length (ObjectId.binary o) = 12%nat ∧
       oid_str (VOid o) = VStr "5f3a9c0012ab34cd56ef7890".
Proof.
  apply canonical_text_round_trip; reflexivity.
Defined.

Lemma list_docs_undecodable (S : string) (w : World) :
  decode S = Ok None → list_docs (Some S) w = list_docs None w.
Proof.
  intros Hv%decode_none.
  unfold list_docs, try_except, bind, ret, lift.
  case_decide; by rewrite ?Hv.
Qed.

(** X9. A text that does not have 24 characters is no identity, whatever
    the state of the store: create_doc refuses it with 400 "Section not
    found" and writes nothing, and list_docs treats it as no filter. *)
Theorem wrong_length_rejected (new_id : ObjectId.t) (payload : DocCreate.t)
    (S : string) (w : World) :
  (String.length (DocCreate.section_id payload) ≠ 24%nat →
   create_doc new_id payload w
   = (Raise (HTTPException 400 "Section not found"), w)) ∧
  (String.length S ≠ 24%nat →
   list_docs (Some S) w = list_docs None w).
Proof.
  assert (∀ s, String.length s ≠ 24%nat → decode s = Ok None) as Hdec.
  { intros s Hlen. apply decode_none.
    destruct (is_valid_total s) as [[] Hb]; [|done].
    apply is_valid_true in Hb as [? _]. done. }
  split; intros Hlen.
  - by apply create_doc_invalid, Hdec.
  - by apply list_docs_undecodable, Hdec.
Qed.

End identity_texts.

(** * Serialization, in full *)

Section serialization.

Lemma serialize_doc_nonempty (doc : dict) :
  doc ≠ ∅ → serialize_doc doc ≠ ∅.
Proof.
  intros Hne Hempty.
  pose proof (serialize_doc_id doc Hne) as Hid.
  by rewrite Hempty, lookup_empty in Hid.
Qed.

Lemma oid_str_not_oid (v : value) : ¬ is_oid (oid_str v).
Proof. destruct v; simpl; tauto. Qed.

(** X10. What serialize_doc gives holds no identity any more, provided
    the record held identities nowhere but under [_id] and [section_id]
    (as the records of create_doc do): every value left is a text, a
    number, a list of texts or None. *)
Theorem serialize_doc_no_identity (doc : dict) (k : string) (v : value) :
  (∀ k' o, doc !! k' = Some (VOid o) → k' = "_id" ∨ k' = "section_id") →
  serialize_doc doc !! k = Some v →
  ¬ is_oid v.
Proof.
  intros Honly Hk Hv. destruct v as [| | | |o]; try done.
  destruct (decide (doc = ∅)) as [->|Hne].
  { unfold serialize_doc in Hk. by rewrite decide_True, lookup_empty in Hk. }
  destruct (decide (k = "id")) as [->|Hid].
  { rewrite serialize_doc_id in Hk by done. injection Hk as Hk.
    apply (oid_str_not_oid (default VNone (doc !! "_id"))). by rewrite Hk. }
  destruct (decide (k = "_id")) as [->|H_id].
  { by rewrite serialize_doc_no__id in Hk. }
  destruct (decide (k = "section_id")) as [->|Hsec].
  { rewrite serialize_doc_section_id in Hk by done.
    by destruct (doc !! "section_id") as [[]|]. }
  rewrite serialize_doc_other in Hk by done.
  by destruct (Honly k o Hk).
Qed.

Lemma serialize_doc_no_identity_witness :
  ¬ is_oid (VStr "abcdefabcdefabcdefabcdef").
Proof.
  apply (serialize_doc_no_identity
           (doc_record (oid_of_nat 9) oid_abc upper_case_payload)
           "section_id").
  - intros k' o. unfold doc_record, DocCreate.model_dump. simpl.
    destruct (decide (k' = "_id")) as [->|?]; [by left|].
    destruct (decide (k' = "section_id")) as [->|?]; [by right|].
    rewrite !lookup_insert_ne by done.
    destruct (decide (k' = "title")) as [->|?];
      [by rewrite lookup_insert_eq|rewrite lookup_insert_ne by done].
    destruct (decide (k' = "content")) as [->|?];
      [by rewrite lookup_insert_eq|rewrite lookup_insert_ne by done].
    destruct (decide (k' = "tags")) as [->|?];
      [by rewrite lookup_insert_eq|rewrite lookup_insert_ne by done].
    destruct (decide (k' = "cover_image")) as [->|?];
      [by rewrite lookup_insert_eq|rewrite lookup_insert_ne by done].
    by rewrite lookup_empty.
  - vm_compute. reflexivity.
Defined.

(** X11. serialize_doc is to be applied once.  On a record that has no
    [_id], be it a record already serialized, it sets [id] to None: a
    second serialization keeps every field of the first but the [id],
    which it loses. *)
Theorem serialize_doc_again (doc : dict) :
  doc ≠ ∅ →
  (doc !! "_id" = None → serialize_doc doc !! "id" = Some VNone) ∧
  serialize_doc (serialize_doc doc) = <["id" := VNone]> (serialize_doc doc).
Proof.
  intros Hne. split.
  - intros Hid. by rewrite serialize_doc_id, Hid.
  - pose proof (serialize_doc_nonempty doc Hne) as Hne'.
    pose proof (serialize_doc_no__id doc Hne) as Hno.
    pose proof (serialize_doc_section_id doc Hne) as Hsec.
    set (out := serialize_doc doc) in *.
    unfold serialize_doc at 1. rewrite decide_False by done. simpl.
    rewrite Hno. simpl. rewrite (delete_id out "_id") by done.
    rewrite lookup_insert_ne by done.
    destruct (out !! "section_id") as [[| | | |o]|] eqn:Hout; try done.
    by destruct (doc !! "section_id") as [[]|].
Qed.

Lemma serialize_doc_again_witness :
  serialize_doc (serialize_doc section_a) !! "id" = Some VNone.
Proof.
  destruct (serialize_doc_again section_a) as [_ ->].
  - intros Hempty. apply (f_equal (lookup "title")) in Hempty.
    vm_compute in Hempty. discriminate.
  - apply lookup_insert_eq.
Defined.

End serialization.

(** * Upload namer, in full *)

Section splitting_names.

Lemma substring_full (s : string) : String.substring 0 (String.length s) s = s.
Proof. induction s as [|c s IH]; simpl; [done|by rewrite IH]. Qed.

Lemma substring_split (s : string) (n : nat) :
  (n ≤ String.length s)%nat →
  String.substring 0 n s +:+ String.substring n (String.length s - n) s = s.
Proof.
  revert n. induction s as [|c s IH]; intros [|n] Hn; simpl in *;
    try done; try lia.
  - by rewrite substring_full.
  - change (String c (String.substring 0 n s) +:+
            String.substring n (String.length s - n) s)
      with (String c (String.substring 0 n s +:+
                      String.substring n (String.length s - n) s)).
    rewrite IH; [done|lia].
Qed.

Lemma rfind_from_range (c : ascii) (p : string) (i last : Z) :
  os_path.rfind_from c p i last = last ∨
  (i ≤ os_path.rfind_from c p i last < i + Z.of_nat (String.length p))%Z.
Proof.
  revert i last. induction p as [|x p IH]; intros i last; simpl; [by left|].
  destruct (IH (i + 1)%Z (if Ascii.eqb x c then i else last)) as [Heq|Hin].
  - rewrite Heq. destruct (Ascii.eqb x c); [right; lia|by left].
  - right. lia.
Qed.

Lemma string_app_nil_r (s : string) : s +:+ "" = s.
Proof.
  induction s as [|c s IH]; [done|].
  change (String c s +:+ "") with (String c (s +:+ "")). by rewrite IH.
Qed.

(** The two parts [os.path.splitext] gives make up the name again. *)
Lemma splitext_app (p : string) :
  (os_path.splitext p).1 +:+ (os_path.splitext p).2 = p.
Proof.
  unfold os_path.splitext.
  destruct ((os_path.rfind "/" p <? os_path.rfind "." p)%Z &&
            negb (os_path.all_dots
                    (os_path.slice p (os_path.rfind "/" p + 1)
                       (os_path.rfind "." p)))) eqn:Hcond; simpl.
  - apply andb_prop in Hcond as [Hlt%Z.ltb_lt _].
    unfold os_path.rfind in *.
    destruct (rfind_from_range "/" p 0 (-1)) as [Hs|Hs],
      (rfind_from_range "." p 0 (-1)) as [Hd|Hd]; try lia.
    + unfold os_path.slice.
      replace (Z.to_nat (os_path.rfind_from "." p 0 (-1) - 0))
        with (Z.to_nat (os_path.rfind_from "." p 0 (-1))) by lia.
      replace (Z.to_nat (Z.of_nat (String.length p)
                         - os_path.rfind_from "." p 0 (-1)))
        with (String.length p - Z.to_nat (os_path.rfind_from "." p 0 (-1)))%nat
        by lia.
      change (Z.to_nat 0) with 0%nat.
      apply substring_split. lia.
    + unfold os_path.slice.
      replace (Z.to_nat (os_path.rfind_from "." p 0 (-1) - 0))
        with (Z.to_nat (os_path.rfind_from "." p 0 (-1))) by lia.
      replace (Z.to_nat (Z.of_nat (String.length p)
                         - os_path.rfind_from "." p 0 (-1)))
        with (String.length p - Z.to_nat (os_path.rfind_from "." p 0 (-1)))%nat
        by lia.
      change (Z.to_nat 0) with 0%nat.
      apply substring_split. lia.
  - apply string_app_nil_r.
Qed.

Lemma suffixed_ne_filename (filename : string) (i : nat) :
  suffixed (os_path.splitext filename).1 (os_path.splitext filename).2 i
  ≠ filename.
Proof.
  intros Heq. apply (f_equal String.length) in Heq.
  rewrite <-(splitext_app filename) in Heq at 3.
  unfold suffixed in Heq. rewrite !string_length_app in Heq.
  simpl in Heq. lia.
Qed.

End splitting_names.

Section uploading.

(** X12. The name an upload settles on is the requested name, or the
    requested name with [_k], for some [k ≥ 1], put in before its
    extension; the second only when the requested name was taken.  The
    upload returns the url [/static/] followed by that name when the disk
    takes the write at the path of the name; when opening or writing
    fails there it answers with status 500 and the text of the error. *)
Theorem upload_image_name (disk : string → list byte → disk_answer)
    (fuel : nat) (filename : string) (content : list byte) (w w' : World)
    (r : result string) :
  upload_image disk fuel filename content w = Some (r, w') →
  ∃ name,
    (name = filename ∨
     ∃ base ext k,
       base +:+ ext = filename ∧ (1 ≤ k)%nat ∧
       name = base +:+ "_" +:+ pretty k +:+ ext ∧
       is_Some (files w !! os_path.join UPLOAD_DIR filename)) ∧
    ((disk (os_path.join UPLOAD_DIR name) content = accepts ∧
      r = Ok ("/static/" +:+ name)) ∨
     (∃ e, r = Raise (HTTPException 500 (str_exn e)) ∧
           (disk (os_path.join UPLOAD_DIR name) content = open_fails e ∨
            ∃ written,
              disk (os_path.join UPLOAD_DIR name) content
              = write_fails e written))).
Proof.
  intros (name & _ & Hshape & Heq)%upload_image_some.
  exists name. split.
  - destruct Hshape as [->|(Htaken & k & Hk & ->)]; [by left|right].
    exists (os_path.splitext filename).1, (os_path.splitext filename).2, k.
    split_and!; [apply splitext_app|done..].
  - destruct (disk (os_path.join UPLOAD_DIR name) content) as [|e|e written];
      injection Heq as -> ->.
    + by left.
    + right. exists e. split; [done|by left].
    + right. exists e. split; [done|right; by exists written].
Qed.

Lemma upload_image_name_witness :
  let w := mkWorld None {["uploads/x.png" := [x01]]} ∅ in
  let disk := λ (path : string) (_ : list byte),
                if String.eqb path "uploads/x_1.png"
                then open_fails (OtherError "[Errno 13] Permission denied")
                else accepts in
  upload_image disk 1 "x.png" [x02] w
  = Some (Raise (HTTPException 500 "[Errno 13] Permission denied"), w) ∧
  ∃ name,
    (name = "x.png" ∨
     ∃ base ext k,
       base +:+ ext = "x.png" ∧ (1 ≤ k)%nat ∧
       name = base +:+ "_" +:+ pretty k +:+ ext ∧
       is_Some (files w !! os_path.join UPLOAD_DIR "x.png")) ∧
    disk (os_path.join UPLOAD_DIR name) [x02] ≠ accepts.
Proof.
  intros w disk. split; [vm_compute; reflexivity|].
  destruct (upload_image_name disk 1 "x.png" [x02] w w
              (Raise (HTTPException 500 "[Errno 13] Permission denied")))
    as (name & Hshape & Hout).
  - vm_compute. reflexivity.
  - exists name. split; [done|].
    destruct Hout as [[_ [=]]|(e & _ & [->|[written ->]])]; done.
Defined.

(** X13. Where an upload goes.  When the path of the requested name is
    free, the upload goes to [os.path.join("uploads", filename)]: a name
    that begins with [/] leads to that very path, outside the upload
    directory, and any other name to [uploads/] followed by the name; the
    name is not cleaned.  If the disk takes the write there, the content
    is stored at that path and the url is [/static/] followed by the name
    as sent; if opening fails there (the directory is not there, say),
    the answer is status 500 with the text of the error and nothing is
    written. *)
Theorem upload_image_path (disk : string → list byte → disk_answer)
    (fuel : nat) (filename : string) (content : list byte) (w : World) :
  files w !! os_path.join UPLOAD_DIR filename = None →
  os_path.join UPLOAD_DIR filename
  = (if String.prefix "/" filename then filename
     else "uploads/" +:+ filename) ∧
  (disk (os_path.join UPLOAD_DIR filename) content = accepts →
   upload_image disk fuel filename content w
   = Some (Ok ("/static/" +:+ filename),
           stored_at w (os_path.join UPLOAD_DIR filename) content)) ∧
  (∀ e, disk (os_path.join UPLOAD_DIR filename) content = open_fails e →
        upload_image disk fuel filename content w
        = Some (Raise (HTTPException 500 (str_exn e)), w)).
Proof.
  intros Hfree.
  destruct (os_path.splitext filename) as [base ext] eqn:Hsplit.
  assert (probe fuel (files w) base ext 1 filename
            (os_path.join UPLOAD_DIR filename)
          = Some (filename, os_path.join UPLOAD_DIR filename)) as Hp
      by by apply probe_free.
  pose proof (upload_image_settled disk _ _ content _ _ _ _ Hsplit Hp) as Hup.
  split_and!.
  - unfold os_path.join, UPLOAD_DIR.
    by destruct (String.prefix "/" filename).
  - intros Hd. by rewrite Hup, Hd.
  - intros e Hd. by rewrite Hup, Hd.
Qed.

Lemma upload_image_path_witness :
  let disk := λ (path : string) (_ : list byte),
                if String.prefix "/srv/app/" path then accepts
                else open_fails
                       (OtherError "[Errno 2] No such file or directory") in
  upload_image disk 0 "/srv/app/main.py" [x01] (mkWorld None ∅ ∅)
  = Some (Ok "/static//srv/app/main.py",
          mkWorld None {["/srv/app/main.py" := [x01]]} ∅) ∧
  upload_image disk 0 "sub/x.png" [x01] (mkWorld None ∅ ∅)
  = Some (Raise (HTTPException 500 "[Errno 2] No such file or directory"),
          mkWorld None ∅ ∅).
Proof.
  intros disk.
  destruct (upload_image_path disk 0 "/srv/app/main.py" [x01]
              (mkWorld None ∅ ∅)) as (_ & Hok & _); [done|].
  destruct (upload_image_path disk 0 "sub/x.png" [x01]
              (mkWorld None ∅ ∅)) as (_ & _ & Hfail); [done|].
  split.
  - rewrite Hok by reflexivity. vm_compute. reflexivity.
  - rewrite (Hfail (OtherError "[Errno 2] No such file or directory"))
      by reflexivity.
    reflexivity.
Defined.

Section one_name.

Variables (disk : string → list byte → disk_answer).
Variables (filename base ext : string).
Hypothesis Hsplit : os_path.splitext filename = (base, ext).

Lemma probe_skip fuel existing idx k name path :
  is_Some (existing !! path) →
  (∀ j, (idx ≤ j < k)%nat → is_Some (existing !! candidate base ext j)) →
  existing !! candidate base ext k = None →
  (idx ≤ k)%nat →
  (k - idx < fuel)%nat →
  probe fuel existing base ext idx name path
  = Some (suffixed base ext k, candidate base ext k).
Proof.
  revert idx name path.
  induction fuel as [|fuel IH]; intros idx name path Hpath Htaken Hfree Hle Hlt;
    [lia|].
  rewrite probe_taken by done.
  destruct (decide (idx = k)) as [->|Hne].
  - by apply probe_free.
  - apply IH; [apply Htaken; lia| |done|lia|lia].
    intros j Hj. apply Htaken. lia.
Qed.

Lemma upload_next fuel content k w :
  (1 ≤ k)%nat →
  (k ≤ fuel)%nat →
  uploaded filename base ext k w →
  disk (candidate base ext k) content = accepts →
  upload_image disk fuel filename content w
  = Some (Ok ("/static/" +:+ suffixed base ext k),
          stored_at w (candidate base ext k) content) ∧
  uploaded filename base ext (S k) (stored_at w (candidate base ext k) content).
Proof.
  intros Hk Hfuel (Hname & Htaken & Hfree) Hdisk. split.
  - apply (upload_image_free _ _ (suffixed base ext k) _ _ base ext 1);
      [|done..].
    apply probe_skip; [done|done|by apply Hfree|done|lia].
  - unfold uploaded, stored_at. simpl. split_and!.
    + destruct (decide (candidate base ext k
                        = os_path.join UPLOAD_DIR filename)) as [->|Hne];
        [by rewrite lookup_insert_eq|by rewrite lookup_insert_ne].
    + intros j Hj. destruct (decide (j = k)) as [->|Hne].
      * by rewrite lookup_insert_eq.
      * rewrite lookup_insert_ne; [apply Htaken; lia|].
        intros Heq. by apply (candidate_inj base ext) in Heq.
    + intros j Hj. rewrite lookup_insert_ne; [apply Hfree; lia|].
      intros Heq. apply (candidate_inj base ext) in Heq. lia.
Qed.

Lemma upload_all_from fuel contents k w :
  (1 ≤ k)%nat →
  (k + length contents ≤ fuel)%nat →
  uploaded filename base ext k w →
  (∀ path content, content ∈ contents → disk path content = accepts) →
  ∃ w',
    upload_all disk fuel filename contents w
    = Some (map (λ i, Ok ("/static/" +:+ suffixed base ext i))
              (seq k (length contents)), w') ∧
    uploaded filename base ext (k + length contents) w'.
Proof.
  revert k w. induction contents as [|content contents IH];
    intros k w Hk Hfuel Hup Hdisk; simpl in *.
  - exists w. split; [done|]. by rewrite Nat.add_0_r.
  - destruct (upload_next fuel content k w Hk) as [Himg Hup'];
      [lia|done|apply Hdisk; by left|].
    destruct (IH (S k) (stored_at w (candidate base ext k) content))
      as (w' & Hall & Hup''); [lia|lia|done| |].
    { intros path c Hc. apply Hdisk. by right. }
    exists w'. rewrite Himg, Hall. split; [done|].
    by replace (k + S (length contents))%nat
      with (S k + length contents)%nat by lia.
Qed.

Lemma upload_first fuel content w :
  files w !! os_path.join UPLOAD_DIR filename = None →
  (∀ j, (1 ≤ j)%nat → files w !! candidate base ext j = None) →
  disk (os_path.join UPLOAD_DIR filename) content = accepts →
  upload_image disk fuel filename content w
  = Some (Ok ("/static/" +:+ filename),
          stored_at w (os_path.join UPLOAD_DIR filename) content) ∧
  uploaded filename base ext 1
    (stored_at w (os_path.join UPLOAD_DIR filename) content).
Proof.
  intros Hfree Hfrees Hdisk. split.
  - apply (upload_image_free _ _ filename _ _ base ext 1); [|done..].
    by apply probe_free.
  - unfold uploaded, stored_at. simpl. split_and!.
    + by rewrite lookup_insert_eq.
    + intros j. lia.
    + intros j Hj. rewrite lookup_insert_ne; [by apply Hfrees|].
      intros Heq. apply (join_upload_dir_inj) in Heq.
      pose proof (suffixed_ne_filename filename j) as Hne.
      rewrite Hsplit in Hne. simpl in Hne. congruence.
Qed.

End one_name.

(** X14. Uploads of one name, one after the other, on a disk that takes
    each of the writes and where the path of the name and the paths of
    its suffixed names are free: the uploads are stored, in this order,
    under the name itself, [B_1.E], [B_2.E], ..., one name each, as long
    as the loop is given at least as many rounds as there are uploads. *)
Theorem upload_all_names (disk : string → list byte → disk_answer)
    (fuel : nat) (filename : string) (contents : list (list byte))
    (w : World) :
  files w !! os_path.join UPLOAD_DIR filename = None →
  (∀ j, (1 ≤ j)%nat →
        files w !! candidate (os_path.splitext filename).1
                     (os_path.splitext filename).2 j = None) →
  (∀ path content, content ∈ contents → disk path content = accepts) →
  (length contents ≤ fuel)%nat →
  ∃ w',
    upload_all disk fuel filename contents w
    = Some (map (λ i, Ok ("/static/" +:+ nth_name filename i))
              (seq 0 (length contents)), w').
Proof.
  intros Hfree Hfrees Hdisk Hfuel.
  destruct (os_path.splitext filename) as [base ext] eqn:Hsplit.
  simpl in Hfrees.
  destruct contents as [|content contents]; [by exists w|].
  destruct (upload_first disk filename base ext Hsplit fuel content w
              Hfree Hfrees) as [Himg Hup]; [apply Hdisk; by left|].
  destruct (upload_all_from disk filename base ext Hsplit fuel contents 1 _
              (le_n 1) Hfuel Hup) as (w' & Hall & _).
  { intros path c Hc. apply Hdisk. by right. }
  exists w'. simpl. rewrite Himg, Hall. do 3 f_equal.
  apply map_ext_in. intros i Hi%in_seq. unfold nth_name. rewrite Hsplit.
  destruct i; [lia|done].
Qed.

Lemma upload_all_names_witness :
  ∃ w',
    upload_all sound_disk 4 "notes.tar.gz" [[x01]; [x02]; [x03]; [x04]]
      (mkWorld None ∅ ∅)
    = Some ([Ok "/static/notes.tar.gz"; Ok "/static/notes.tar_1.gz";
             Ok "/static/notes.tar_2.gz"; Ok "/static/notes.tar_3.gz"], w').
Proof.
  destruct (upload_all_names sound_disk 4 "notes.tar.gz"
              [[x01]; [x02]; [x03]; [x04]] (mkWorld None ∅ ∅))
    as [w' Hw']; [done|done|done|simpl; lia|].
  exists w'. rewrite Hw'. vm_compute. reflexivity.
Defined.

End uploading.

(** * Health check, in full *)

Section health_summary.

Lemma getenv_truthy_iff (w : World) (key : string) :
  getenv_truthy w key = true ↔ ∃ v, environ w !! key = Some v ∧ v ≠ "".
Proof.
  unfold getenv_truthy. destruct (environ w !! key) as [v|].
  - rewrite bool_decide_eq_true. split; [by exists v|].
    by intros (? & [= <-] & ?).
  - split; [done|]. by intros (? & ? & _).
Qed.

(** X16. The summary of the health check always has the same six fields.
    [database_url] and [database_name] say whether the variables
    DATABASE_URL and DATABASE_NAME are set to a text that is not empty,
    and nothing about the handle: the name of the database never shows.
    [collections] lists at most ten names, each the name of a collection
    of the store. *)
Theorem test_database_summary (w : World) :
  ∃ response names,
    test_database w = (Ok response, w) ∧
    dom response
    = ({["backend"; "database"; "database_url"; "database_name";
         "connection_status"; "collections"]} : gset string) ∧
    response !! "database_url"
    = Some (VStr (if getenv_truthy w "DATABASE_URL"
                  then "✅ Set" else "❌ Not Set")) ∧
    response !! "database_name"
    = Some (VStr (if getenv_truthy w "DATABASE_NAME"
                  then "✅ Set" else "❌ Not Set")) ∧
    (∀ key, getenv_truthy w key = true ↔
            ∃ v, environ w !! key = Some v ∧ v ≠ "") ∧
    response !! "collections" = Some (VList names) ∧
    (length names ≤ 10)%nat ∧
    ∀ n, n ∈ names → ∃ d, db w = Some d ∧ is_Some (collections d !! n).
Proof.
  unfold test_database, bind, get_world, ret, list_collection_names.
  destruct (db w) as [d|] eqn:Hdb; [destruct (server_error d) as [e|] eqn:He|].
  - eexists _, [].
    split_and!; [done| |lookup_fields|lookup_fields| |lookup_fields|simpl; lia|].
    + rewrite !dom_insert_L, dom_empty_L. set_solver.
    + apply getenv_truthy_iff.
    + by intros n ?%elem_of_nil.
  - eexists _, (take 10 (elements (dom (collections d)))).
    split_and!; [done| |lookup_fields|lookup_fields| |lookup_fields| |].
    + rewrite !dom_insert_L, dom_empty_L. set_solver.
    + apply getenv_truthy_iff.
    + rewrite length_take. lia.
    + intros n Hn. exists d. split; [done|].
      apply elem_of_dom, elem_of_elements.
      by apply (subseteq_take 10).
  - eexists _, [].
    split_and!; [done| |lookup_fields|lookup_fields| |lookup_fields|simpl; lia|].
    + rewrite !dom_insert_L, dom_empty_L. set_solver.
    + apply getenv_truthy_iff.
    + by intros n ?%elem_of_nil.
Qed.

End health_summary.

(** * Listing docs, in full *)

Section listing_docs.

Lemma find_run (coll : string) (query : dict) (w : World) :
  find coll query w
  = (match db w with
     | None => Raise (TypeError "'NoneType' object is not subscriptable")
     | Some d =>
         match server_error d with
         | Some e => Raise e
         | None =>
             Ok (filter (λ doc, matches query doc = true) (records d coll))
         end
     end, w).
Proof.
  unfold find, db_getitem, bind, get_world, ret, raise.
  destruct (db w) as [d|]; [|done]. by destruct (server_error d).
Qed.

(** The filter list_docs hands to the store. *)
Lemma list_docs_run (section_id : option string) (w : World) :
  ∃ query : dict,
    list_docs section_id w
    = (match (find "doc" query w).1 with
       | Ok items => Ok (map serialize_doc items)
       | Raise e => Raise (HTTPException 500 (str_exn e))
       end, w).
Proof.
  assert (∀ query : dict,
            try_except
              (let* items := find "doc" query in ret (map serialize_doc items))
              internal_error w
            = (match (find "doc" query w).1 with
               | Ok items => Ok (map serialize_doc items)
               | Raise e => Raise (HTTPException 500 (str_exn e))
               end, w)) as Hrun.
  { intros query. unfold try_except, bind, ret, internal_error, raise.
    rewrite find_run. simpl.
    destruct (db w) as [d|]; [|done]. by destruct (server_error d). }
  unfold list_docs. destruct section_id as [S|].
  - destruct (decide (S = "")) as [->|Hne].
    + exists ∅. rewrite <-Hrun.
      by unfold try_except, bind, ret.
    + destruct (decode_total S) as ([o|] & Hdec & _).
      * apply decode_some in Hdec as [Hv Hn].
        exists (<["section_id" := VOid o]> ∅). rewrite <-Hrun.
        unfold try_except, bind, ret, lift.
        by rewrite Hv, Hn.
      * apply decode_none in Hdec.
        exists ∅. rewrite <-Hrun.
        unfold try_except, bind, ret, lift.
        by rewrite Hdec.
  - exists ∅. rewrite <-Hrun. by unfold try_except, bind, ret.
Qed.

(** X17. list_docs never changes the world.  It answers with a list
    exactly when there is a database handle and its server answers; with
    no handle, or a server that raises, it fails with status 500 and the
    description of the failure, whatever the filter. *)
Theorem list_docs_outcome (section_id : option string) (w : World) :
  (list_docs section_id w).2 = w ∧
  ((∃ out, (list_docs section_id w).1 = Ok out) ↔ ∃ d, connected w d) ∧
  (db w = None →
   (list_docs section_id w).1
   = Raise (HTTPException 500 "'NoneType' object is not subscriptable")) ∧
  (∀ d e, db w = Some d → server_error d = Some e →
          (list_docs section_id w).1 = Raise (HTTPException 500 (str_exn e))).
Proof.
  destruct (list_docs_run section_id w) as [query ->].
  rewrite find_run. simpl. split_and!.
  - done.
  - unfold connected. destruct (db w) as [d|] eqn:Hdb.
    + destruct (server_error d) as [e|] eqn:He.
      * split; [by intros [? ?]|]. intros (d' & [= <-] & He'). congruence.
      * split; [by exists d|by eexists].
    + split; [by intros [? ?]|]. by intros (? & ? & _).
  - by intros ->.
  - intros d e -> He. by rewrite He.
Qed.

End listing_docs.

(** * Well-formed identity texts *)

Section well_formed_texts.

Lemma hex_char_not_space (c : ascii) :
  hex_char c = true → ObjectId.is_space c = false.
Proof.
  destruct c as [[] [] [] [] [] [] [] []]; intros H; vm_compute in H;
    try discriminate H; reflexivity.
Qed.

Lemma hex_char_lower (c : ascii) :
  hex_char c = true → lower_hex_char (lower_char c) = true.
Proof.
  destruct c as [[] [] [] [] [] [] [] []]; intros H; vm_compute in H;
    try discriminate H; reflexivity.
Qed.

Lemma hex_text_lower (s : string) :
  string_forall hex_char s = true → lower_hex (lower s) = true.
Proof.
  induction s as [|c s IH]; [done|]. simpl.
  intros [Hc Hs]%andb_prop. by rewrite hex_char_lower, IH.
Qed.

Lemma hex_text_no_space (s : string) :
  string_forall hex_char s = true → count_space s = 0%nat.
Proof.
  induction s as [|c s IH]; [done|]. simpl.
  intros [Hc Hs]%andb_prop. by rewrite (hex_char_not_space c Hc), IH.
Qed.

Lemma no_space_hex_text (s : string) :
  count_space s = 0%nat →
  string_forall (λ c, hex_char c || ObjectId.is_space c) s = true →
  string_forall hex_char s = true.
Proof.
  induction s as [|c s IH]; [done|]. simpl.
  intros Hcount [Hc Hs]%andb_prop.
  destruct (ObjectId.is_space c); [simpl in Hcount; lia|].
  rewrite orb_false_r in Hc. rewrite Hc, IH; [done|lia|done].
Qed.

(** What [bytes.fromhex] takes: two digits for each byte it gives, and
    white space besides. *)
Lemma fromhex_shape_aux (s : string) :
  (∀ bs, ObjectId.fromhex s = Some bs →
         String.length s = (2 * length bs + count_space s)%nat ∧
         string_forall (λ c, hex_char c || ObjectId.is_space c) s = true) ∧
  (∀ c bs, ObjectId.fromhex (String c s) = Some bs →
           String.length (String c s)
           = (2 * length bs + count_space (String c s))%nat ∧
           string_forall (λ c, hex_char c || ObjectId.is_space c)
             (String c s) = true).
Proof.
  induction s as [|c' s [IH1 IH2]].
  - split; [by intros bs [= <-]|].
    intros c bs. cbn [ObjectId.fromhex].
    destruct (ObjectId.is_space c) eqn:Hsp.
    + intros [= <-]. simpl. by rewrite Hsp, orb_true_r.
    + by destruct (ObjectId.digit_value c).
  - split; [exact (IH2 c')|].
    intros c bs. cbn [ObjectId.fromhex].
    destruct (ObjectId.is_space c) eqn:Hsp.
    + intros [Hlen Hall]%IH2.
      cbn [String.length count_space string_forall] in *.
      rewrite Hsp, orb_true_r. split; [lia|done].
    + destruct (ObjectId.digit_value c) as [top|] eqn:Htop; [|done].
      destruct (ObjectId.digit_value c') as [bot|] eqn:Hbot; [|done].
      destruct (Byte.of_N (16 * top + bot)) as [b|]; [|done].
      destruct (ObjectId.fromhex s) as [bs'|] eqn:Hbs'; [|done].
      intros [= <-]. destruct (IH1 bs' eq_refl) as [Hlen Hall].
      assert (hex_char c' = true) as Hc' by (unfold hex_char; by rewrite Hbot).
      cbn [String.length count_space string_forall length].
      rewrite Hsp, (hex_char_not_space c' Hc'), Hall.
      unfold hex_char. rewrite Htop, Hbot. simpl. split; [lia|done].
Qed.

Lemma new_ok (s : string) (o : ObjectId.t) :
  ObjectId.new s = Ok o →
  String.length s = 24%nat ∧ ObjectId.fromhex s = Some (ObjectId.binary o).
Proof.
  unfold ObjectId.new. case_decide; [|done].
  destruct (ObjectId.fromhex s); [|done]. by intros [= <-].
Qed.

(** A well-formed text decodes to an identity of twelve bytes, whose text
    form is the text in lower case and decodes to the same identity. *)
Lemma decode_well_formed (s : string) :
  well_formed s = true →
  ∃ o, decode s = Ok (Some o) ∧
       length (ObjectId.binary o) = 12%nat ∧
       ObjectId.str o = lower s ∧
       decode (ObjectId.str o) = Ok (Some o).
Proof.
  intros [Hlen%bool_decide_eq_true Hhex]%andb_prop.
  pose proof (hex_text_lower s Hhex) as Hlow.
  destruct (fromhex_lower_hex 12 (lower s) Hlow) as (bs & Hbs & Hn).
  { by rewrite length_lower. }
  assert (ObjectId.new (lower s) = Ok (ObjectId.mk bs)) as Hnew.
  { unfold ObjectId.new. rewrite length_lower, Hbs. by rewrite decide_True. }
  assert (decode (lower s) = Ok (Some (ObjectId.mk bs))) as Hdec.
  { apply decode_some. split; [|done].
    apply is_valid_true. rewrite length_lower, Hbs. by split. }
  exists (ObjectId.mk bs).
  rewrite (str_new_canonical _ _ Hlow Hnew).
  split_and!; [by rewrite <-decode_lower|done|done|done].
Qed.

(** An identity that comes out of decoding has twelve bytes exactly when
    the text was well formed, and fewer otherwise. *)
Lemma decode_some_bytes (s : string) (o : ObjectId.t) :
  decode s = Ok (Some o) →
  (length (ObjectId.binary o) ≤ 12)%nat ∧
  (length (ObjectId.binary o) = 12%nat ↔ well_formed s = true).
Proof.
  intros [_ [Hlen Hbs]%new_ok]%decode_some.
  destruct (proj1 (fromhex_shape_aux s) _ Hbs) as [Hshape Hall].
  split; [lia|]. unfold well_formed. rewrite bool_decide_eq_true_2 by done.
  simpl. split.
  - intros H12. apply no_space_hex_text; [lia|done].
  - intros Hhex%hex_text_no_space. lia.
Qed.

Lemma decode_foreign_char (s : string) :
  has_foreign_char s = true → decode s = Ok None.
Proof.
  unfold has_foreign_char. intros Hforeign%negb_true_iff.
  destruct (decode_total s) as ([o|] & Hdec & _); [|done].
  apply decode_some in Hdec as [_ [_ Hbs]%new_ok].
  destruct (proj1 (fromhex_shape_aux s) _ Hbs) as [_ Hall]. congruence.
Qed.

Lemma decode_wrong_length (s : string) :
  String.length s ≠ 24%nat → decode s = Ok None.
Proof.
  intros Hlen. destruct (decode_total s) as ([o|] & Hdec & _); [|done].
  by apply decode_some in Hdec as [_ [? _]%new_ok].
Qed.

(** C8, as the code has it.  The text form of a twelve-byte identity, as
    the store generates them, decodes to that identity.  Decoding any
    text returns, with an identity exactly when ObjectId.is_valid takes
    the text and with the invalid mark otherwise: no exception reaches
    the caller.  A well-formed text (24 hexadecimal digits) gives a valid
    identity of twelve bytes that goes round; a text of another length,
    or with a character that is neither a hexadecimal digit nor white
    space, gives the invalid mark; any other text that is taken (24
    characters of hexadecimal pairs and white space) gives an identity of
    fewer than twelve bytes. *)
Theorem identity_codec_round_trip (o : ObjectId.t) (text : string) :
  length (ObjectId.binary o) = 12%nat →
  oid_str (VOid o) = VStr (ObjectId.str o) ∧
  decode (ObjectId.str o) = Ok (Some o) ∧
  ∃ r, decode text = Ok r ∧
       (is_Some r ↔ ObjectId.is_valid text = Ok true) ∧
       (∀ o', r = Some o' → ObjectId.new text = Ok o') ∧
       (well_formed text = true →
        ∃ o', r = Some o' ∧
              length (ObjectId.binary o') = 12%nat ∧
              decode (ObjectId.str o') = Ok (Some o')) ∧
       (String.length text ≠ 24%nat → r = None) ∧
       (has_foreign_char text = true → r = None) ∧
       (∀ o', r = Some o' →
              (length (ObjectId.binary o') ≤ 12)%nat ∧
              (length (ObjectId.binary o') = 12%nat ↔
               well_formed text = true)).
Proof.
  intros Hlen. split_and!; [done| |].
  { unfold decode. by rewrite is_valid_str, new_str. }
  destruct (decode_total text) as (r & Hr & Hvalid & Hnew).
  exists r. split_and!; [done|done|done| | | |].
  - intros (o' & Hdec & H12 & _ & Hround)%decode_well_formed.
    exists o'. split_and!; [congruence|done|done].
  - intros Hdec%decode_wrong_length. congruence.
  - intros Hdec%decode_foreign_char. congruence.
  - intros o' ->. by apply decode_some_bytes.
Qed.

Lemma identity_codec_round_trip_witness :
  decode "0000000000000000000000a7" = Ok (Some (oid_of_nat 167)) ∧
  decode "0000000000000000000000A7" = Ok (Some (oid_of_nat 167)) ∧
  decode "not an identity" = Ok None.
Proof.
  pose proof (identity_codec_round_trip (oid_of_nat 167)
                "0000000000000000000000A7" eq_refl)
    as (_ & Hdec & r & Hr & _ & _ & Hwf & _).
  pose proof (identity_codec_round_trip (oid_of_nat 167) "not an identity"
                eq_refl) as (_ & _ & r' & Hr' & _ & _ & _ & Hlen & _).
  split_and!.
  - exact Hdec.
  - destruct (Hwf eq_refl) as (o' & -> & _). rewrite Hr. do 2 f_equal.
    vm_compute in Hr. injection Hr as <-. vm_compute. reflexivity.
  - rewrite Hr', Hlen; [done|]. vm_compute. lia.
Defined.

(** C8 as the claim words it fails: 24 blanks are no identity text, and
    decoding them does not report invalid; it returns an identity of no
    bytes, whose text form does not decode. *)
Lemma decode_blank_text :
  well_formed blanks = false ∧
  decode blanks = Ok (Some (ObjectId.mk [])) ∧
  length (ObjectId.binary (ObjectId.mk [])) ≠ 12%nat ∧
  decode (ObjectId.str (ObjectId.mk [])) = Ok None.
Proof. split_and!; [reflexivity|reflexivity|simpl; lia|reflexivity]. Qed.

(** C5, as the code has it.  Against a store that answers: a filter text
    that is a well-formed identity (24 hexadecimal digits) decodes to an
    identity of twelve bytes, and list_docs returns exactly the Docs whose
    stored section_id is that identity, serialized, in store order; the
    same goes for every text ObjectId.is_valid takes, with the identity
    it decodes to; a text that is not taken (of another length, or with a
    character that is neither a hexadecimal digit nor white space) is
    ignored, and list_docs returns every Doc as it does with no filter. *)
Theorem list_docs_filter (w : World) (d : Database) (S : string) :
  connected w d →
  (well_formed S = true →
   ∃ oid, decode S = Ok (Some oid) ∧
          length (ObjectId.binary oid) = 12%nat ∧
          ObjectId.str oid = lower S ∧
          list_docs (Some S) w
          = (Ok (map serialize_doc
                   (filter (λ doc, doc !! "section_id" = Some (VOid oid))
                      (records d "doc"))), w)) ∧
  (∀ oid, decode S = Ok (Some oid) →
     list_docs (Some S) w
     = (Ok (map serialize_doc
              (filter (λ doc, doc !! "section_id" = Some (VOid oid))
                 (records d "doc"))), w)) ∧
  (decode S = Ok None →
     list_docs (Some S) w = (Ok (map serialize_doc (records d "doc")), w) ∧
     list_docs (Some S) w = list_docs None w) ∧
  (String.length S ≠ 24%nat ∨ has_foreign_char S = true →
     decode S = Ok None).
Proof.
  intros Hc. split_and!.
  - intros (oid & Hdec & H12 & Hstr & _)%decode_well_formed.
    exists oid. split_and!; [done..|]. by apply list_docs_valid.
  - intros oid Hdec. by apply list_docs_valid.
  - intros Hdec. rewrite (list_docs_invalid _ _ _ Hc Hdec).
    by rewrite (list_docs_all _ _ Hc).
  - intros [Hlen|Hforeign];
      [by apply decode_wrong_length|by apply decode_foreign_char].
Qed.

Lemma list_docs_filter_witness :
  list_docs (Some "000000000000000000000001") two_docs_world
  = (Ok [serialize_doc doc_1], two_docs_world) ∧
  list_docs (Some "section-1") two_docs_world
  = (Ok [serialize_doc doc_1; serialize_doc doc_2], two_docs_world).
Proof.
  assert (connected two_docs_world two_docs_db) as Hc by done.
  pose proof (list_docs_filter _ _ "000000000000000000000001" Hc)
    as (Hwf & _).
  pose proof (list_docs_filter _ _ "section-1" Hc) as (_ & _ & Hinv & Hno).
  split.
  - destruct (Hwf eq_refl) as (oid & Hdec & _ & _ & ->).
    vm_compute in Hdec. injection Hdec as <-.
    vm_compute. reflexivity.
  - destruct Hinv as [-> _]; [apply Hno; left; vm_compute; lia|].
    vm_compute. reflexivity.
Defined.

(** C5 as the claim words it fails: 24 blanks are not a well-formed
    identity, and as a filter they are not ignored; the store has two
    Docs and list_docs returns none. *)
Lemma list_docs_blank_filter :
  well_formed blanks = false ∧
  list_docs None two_docs_world
  = (Ok [serialize_doc doc_1; serialize_doc doc_2], two_docs_world) ∧
  list_docs (Some blanks) two_docs_world = (Ok [], two_docs_world) ∧
  list_docs (Some blanks) two_docs_world ≠ list_docs None two_docs_world.
Proof.
  split_and!; [reflexivity|vm_compute; reflexivity|vm_compute; reflexivity|].
  intros Heq. vm_compute in Heq. discriminate Heq.
Qed.

End well_formed_texts.
